(** * Debt Review API: a shallow embedding of [Debtreviewserver.js]

    The server has two routes.  [POST /api/clients/add] validates a JSON
    submission with an express-validator chain, looks the phone number up in
    the [clients] table, and inserts a row.  [GET /api/clients/export] reads
    the whole table and hands it to a module-level csv-writer object that
    writes [clients.csv], which is then sent as a download.

    Modelling decisions, all visible in the definitions below:
    - a JavaScript string is a [string]; its characters are the characters
      counted by the length validator;
    - a field of the request body is absent ([None], JavaScript [undefined])
      or holds a JSON scalar: a string, an integer-valued number in the safe
      range, a boolean or [null];
    - the three format validators of validator.js ([isMobilePhone],
      [isEmail], [isISO8601]) are parameters of the development;
    - the MySQL connection is a table of rows together with the next
      AUTO_INCREMENT value; a query either fails with an error object chosen
      by the environment, leaving the table as it was, or succeeds; the
      table definition is not part of the repository, so a row holds the
      values as the INSERT bound them and [SELECT *] returns them unchanged,
      in insertion order;
    - the csv-writer object keeps its state between requests, as the library
      does: after a successful write it appends to the file and writes no
      header; a write that fails leaves the file as it was;
    - the clock read by [new Date().toISOString()] is an input of each
      request. *)

From Stdlib Require Import String Ascii ZArith List Bool Lia DecimalString.
From stdpp Require Import base option list gmap strings.

Local Open Scope string_scope.
Local Open Scope Z_scope.

(** ** JSON scalars of the request body *)

Inductive scalar :=
| SStr (s : string)
| SNum (n : Z)
| SBool (b : bool)
| SNull.

#[global] Instance scalar_eq_dec : EqDecision scalar.
Proof. solve_decision. Defined.

(** [req.body]: the parsed JSON object, field name to value. *)
Abbreviation request_body := (gmap string scalar).

(** JavaScript's [String(value)] on a scalar. *)
Definition js_String (v : scalar) : string :=
  match v with
  | SStr s => s
  | SNum n => NilZero.string_of_int (Z.to_int n)
  | SBool true => "true"
  | SBool false => "false"
  | SNull => "null"
  end.

(** [String(value)] where the value may be [undefined]. *)
Definition String_of (value : option scalar) : string :=
  match value with
  | None => "undefined"
  | Some v => js_String v
  end.

(** express-validator's [toString]: what a standard validator is run on.
    [undefined] and [null] become the empty string. *)
Definition toString (value : option scalar) : string :=
  match value with
  | None => ""
  | Some SNull => ""
  | Some v => js_String v
  end.

(** ** The regular expression of the [preferred_time] rule

    A small regular-expression matcher by derivatives; the pattern below is
    the literal of line 210, anchored at both ends. *)

Inductive regex :=
| Nothing
| Eps
| Range (lo hi : ascii)
| Seq (r1 r2 : regex)
| Alt (r1 r2 : regex).

Definition in_range (lo hi c : ascii) : bool :=
  (nat_of_ascii lo <=? nat_of_ascii c)%nat && (nat_of_ascii c <=? nat_of_ascii hi)%nat.

Fixpoint nullable (r : regex) : bool :=
  match r with
  | Nothing => false
  | Eps => true
  | Range _ _ => false
  | Seq r1 r2 => nullable r1 && nullable r2
  | Alt r1 r2 => nullable r1 || nullable r2
  end.

Fixpoint deriv (c : ascii) (r : regex) : regex :=
  match r with
  | Nothing => Nothing
  | Eps => Nothing
  | Range lo hi => if in_range lo hi c then Eps else Nothing
  | Seq r1 r2 =>
      if nullable r1 then Alt (Seq (deriv c r1) r2) (deriv c r2)
      else Seq (deriv c r1) r2
  | Alt r1 r2 => Alt (deriv c r1) (deriv c r2)
  end.

Fixpoint regex_test (r : regex) (s : string) : bool :=
  match s with
  | EmptyString => nullable r
  | String c s' => regex_test (deriv c r) s'
  end.

Definition chr (c : ascii) : regex := Range c c.
Definition digit : regex := Range "0" "9".

(** [/^([01]\d|2[0-3]):([0-5]\d):([0-5]\d)$/] *)
Definition preferred_time_pattern : regex :=
  Seq (Alt (Seq (Range "0" "1") digit) (Seq (chr "2") (Range "0" "3")))
 (Seq (chr ":")
 (Seq (Seq (Range "0" "5") digit)
 (Seq (chr ":")
      (Seq (Range "0" "5") digit)))).

(** ** express-validator *)

Inductive validator :=
| notEmpty
| isMobilePhone
| isLength (min max : nat)
| isEmail
| isISO8601
| matches (pattern : regex)
| isString.

(** One [body(field)...withMessage(message)] chain of the route. *)
Record chain := {
  chain_field : string;
  chain_optional : bool;
  chain_validator : validator;
  chain_message : string
}.

(** An entry of [errors.array()]. *)
Record validation_error := {
  error_value : option scalar;
  error_msg : string;
  error_param : string;
  error_location : string
}.

(** ** Stand-ins for the validator.js format checks

    Simple executable checks, used only to run the model on concrete
    requests: a phone number is a plus sign and at least nine digits, an
    email address contains an at sign, a date is [dddd-dd-dd]. *)

Fixpoint all_digits (s : string) : bool :=
  match s with
  | EmptyString => true
  | String c rest => in_range "0" "9" c && all_digits rest
  end.

Definition sample_isMobilePhone (s : string) : bool :=
  match s with
  | String "+" rest => all_digits rest && (9 <=? String.length rest)%nat
  | _ => false
  end.

Fixpoint sample_isEmail (s : string) : bool :=
  match s with
  | EmptyString => false
  | String c rest => Ascii.eqb c "@" || sample_isEmail rest
  end.

Definition sample_isISO8601 (s : string) : bool :=
  regex_test
    (Seq digit (Seq digit (Seq digit (Seq digit (Seq (chr "-")
    (Seq digit (Seq digit (Seq (chr "-") (Seq digit digit))))))))) s.

Section Server.

(** validator.js format checks, on the stringified value. *)
Variable validator_isMobilePhone : string -> bool.
Variable validator_isEmail : string -> bool.
Variable validator_isISO8601 : string -> bool.

Definition run_validator (v : validator) (value : option scalar) : bool :=
  match v with
  | notEmpty => negb (String.eqb (toString value) "")
  | isMobilePhone => validator_isMobilePhone (toString value)
  | isLength min max =>
      let len := String.length (toString value) in
      (min <=? len)%nat && (len <=? max)%nat
  | isEmail => validator_isEmail (toString value)
  | isISO8601 => validator_isISO8601 (toString value)
  | matches pattern => regex_test pattern (toString value)
  | isString => match value with Some (SStr _) => true | _ => false end
  end.

(** The validation array of [app.post('/api/clients/add', [...])]. *)
Definition add_client_chains : list chain :=
  [ {| chain_field := "title"; chain_optional := false;
       chain_validator := notEmpty; chain_message := "Title is required" |};
    {| chain_field := "name"; chain_optional := false;
       chain_validator := notEmpty; chain_message := "Name is required" |};
    {| chain_field := "surname"; chain_optional := false;
       chain_validator := notEmpty; chain_message := "Surname is required" |};
    {| chain_field := "phone_number"; chain_optional := false;
       chain_validator := isMobilePhone; chain_message := "Invalid phone number" |};
    {| chain_field := "id_number"; chain_optional := false;
       chain_validator := isLength 13 13;
       chain_message := "ID number must be 13 digits" |};
    {| chain_field := "email"; chain_optional := false;
       chain_validator := isEmail; chain_message := "Invalid email" |};
    {| chain_field := "optindate"; chain_optional := true;
       chain_validator := isISO8601; chain_message := "Invalid opt-in date" |};
    {| chain_field := "preferred_time"; chain_optional := true;
       chain_validator := matches preferred_time_pattern;
       chain_message := "Invalid preferred time format" |};
    {| chain_field := "offerID"; chain_optional := true;
       chain_validator := isString; chain_message := "OfferID must be a string" |} ].

(** Running one chain: [optional()] skips the field when it is [undefined];
    otherwise a failing validator records one error with the chain's
    message. *)
Definition run_chain (body : request_body) (c : chain) : list validation_error :=
  let value := body !! chain_field c in
  match chain_optional c, value with
  | true, None => []
  | _, _ =>
      if run_validator (chain_validator c) value then []
      else [ {| error_value := value; error_msg := chain_message c;
                error_param := chain_field c; error_location := "body" |} ]
  end.

(** [errors.isEmpty()] *)
Definition isEmpty (errors : list validation_error) : bool :=
  match errors with
  | [] => true
  | _ :: _ => false
  end.

(** [validationResult(req).array()] *)
Definition validationResult (body : request_body) : list validation_error :=
  flat_map (run_chain body) add_client_chains.

(** ** The [clients] table behind the MySQL connection *)

(** The error object a failed query passes to its callback. *)
Record mysql_error := { err_message : string; err_stack : string }.

(** A row as [SELECT *] returns it: the generated key and the ten columns
    written by the INSERT statement, [NULL] being [SNull]. *)
Record client_row := { row_id : Z; row_columns : gmap string scalar }.

Record datastore := { clients : list client_row; auto_increment : Z }.

(** Binding a JavaScript value to a [?] placeholder: [undefined] and [null]
    are both sent as [NULL]. *)
Definition sql_param (value : option scalar) : scalar :=
  match value with
  | None => SNull
  | Some v => v
  end.

(** SQL [=]: a comparison with [NULL] is never true. *)
Definition sql_eq (a b : scalar) : bool :=
  match a, b with
  | SNull, _ => false
  | _, SNull => false
  | _, _ => bool_decide (a = b)
  end.

(** The value of a column in a row. *)
Definition column (name : string) (r : client_row) : scalar :=
  match row_columns r !! name with
  | Some v => v
  | None => SNull
  end.

(** ['SELECT * FROM clients WHERE phone_number = ?'] *)
Definition checkQuery (fault : option mysql_error) (db : datastore)
    (phone_number : option scalar) : mysql_error + list client_row :=
  match fault with
  | Some err => inl err
  | None =>
      inr (List.filter (fun r => sql_eq (column "phone_number" r) (sql_param phone_number))
             (clients db))
  end.

(** The column list of the INSERT statement. *)
Definition insert_columns : list string :=
  [ "title"; "name"; "surname"; "phone_number"; "id_number"; "email";
    "notes"; "optindate"; "preferred_time"; "offerID" ].

(** [INSERT INTO clients (...) VALUES (?, ..., ?)]: on success the new row
    takes the next AUTO_INCREMENT value, reported as [insertId]; on failure
    the table is as before. *)
Definition insertQuery (fault : option mysql_error) (db : datastore)
    (params : list (option scalar)) : datastore * (mysql_error + Z) :=
  match fault with
  | Some err => (db, inl err)
  | None =>
      let insertId := auto_increment db in
      let row := {| row_id := insertId;
                    row_columns := list_to_map (zip insert_columns (map sql_param params)) |} in
      ({| clients := clients db ++ [row]; auto_increment := insertId + 1 |},
       inr insertId)
  end.

(** ** Responses *)

#[warnings="-register-all"]
Inductive json :=
| JNull
| JNum (n : Z)
| JStr (s : string)
| JArray (items : list json)
| JObject (members : list (string * json))
| JValidationError (e : validation_error).

Inductive http_response :=
| json_response (status : Z) (body : json)
| download_response (filename : string) (content : string).

(** [obj.key] and [obj.key = v] on an object literal. *)
Fixpoint member (key : string) (members : list (string * json)) : option json :=
  match members with
  | [] => None
  | (k, v) :: rest => if String.eqb k key then Some v else member key rest
  end.

Fixpoint set_member (key : string) (v : json) (members : list (string * json))
    : list (string * json) :=
  match members with
  | [] => [(key, v)]
  | (k, w) :: rest =>
      if String.eqb k key then (k, v) :: rest else (k, w) :: set_member key v rest
  end.

(** ** [POST /api/clients/add] *)

(** What the environment decides during one request: the clock and the
    outcome of the two queries. *)
Record add_env := {
  add_now : string;
  lookup_fault : option mysql_error;
  insert_fault : option mysql_error
}.

Definition add_client (env : add_env) (db : datastore) (body : request_body)
    : datastore * http_response :=
  let errors := validationResult body in
  if negb (isEmpty errors) then
    (db, json_response 400 (JObject
      [ ("code", JNum (-5));
        ("response", JStr "Validation error");
        ("info", JArray (map JValidationError errors));
        ("leadId", JNull);
        ("processTime", JNum 0);
        ("timestamp", JStr (add_now env)) ]))
  else
    let params := map (fun c => body !! c) insert_columns in
    match checkQuery (lookup_fault env) db (body !! "phone_number") with
    | inl err =>
        (db, json_response 500 (JObject
          [ ("code", JNum (-100));
            ("response", JStr "Internal error");
            ("info", JObject [("error", JStr "Database error")]);
            ("leadId", JNull);
            ("processTime", JNum 0);
            ("timestamp", JStr (add_now env)) ]))
    | inr results =>
        if (0 <? length results)%nat then
          (db, json_response 400 (JObject
            [ ("code", JNum (-2));
              ("response", JStr "Invalid Lead");
              ("description", JStr "Duplicate");
              ("leadId", JNull);
              ("processTime", JNum 0);
              ("timestamp", JStr (add_now env)) ]))
        else
          let '(db', outcome) := insertQuery (insert_fault env) db params in
          let response :=
            [ ("code", JNum 1);
              ("response", JStr "OK");
              ("info", JArray []);
              ("leadId", JNull);
              ("processTime", JNum 0);
              ("timestamp", JStr (add_now env)) ] in
          let response :=
            match outcome with
            | inl err =>
                [ ("code", JNum (-100));
                  ("response", JStr "Internal error");
                  ("info", JObject [("error", JStr "Database error")]);
                  ("leadId", JNull);
                  ("processTime", JNum 0);
                  ("timestamp", JStr (add_now env)) ]
            | inr insertId => set_member "leadId" (JNum insertId) response
            end in
          (db', json_response
                  (match member "code" response with
                   | Some (JNum 1) => 201
                   | _ => 400
                   end)
                  (JObject response))
    end.

(** ** csv-writer

    [createObjectCsvWriter] is called once, when the module is loaded; the
    object it returns is shared by all export requests.  It keeps two flags,
    both initialised from the [append] option (absent here, so [false]) and
    both set once a write has succeeded: the writer's own flag decides
    whether the header line is emitted, the file writer's flag decides
    whether the file is opened with ['w'] or with ['a']. *)

Record CsvWriter := { append : bool; fileWriter_append : bool }.

Definition createObjectCsvWriter : CsvWriter :=
  {| append := false; fileWriter_append := false |}.

(** The [header] option: column id and title. *)
Definition header : list (string * string) :=
  [ ("title", "Title");
    ("name", "Name");
    ("surname", "Surname");
    ("phone_number", "Phone Number");
    ("id_number", "ID Number");
    ("email", "Email");
    ("notes", "Notes");
    ("optindate", "Opt-in Date");
    ("preferred_time", "Preferred Time");
    ("offerID", "Offer ID") ].

Definition comma : ascii := ",".
Definition dquote : ascii := ascii_of_nat 34.
Definition newline : ascii := ascii_of_nat 10.

Definition fieldDelimiter : string := String comma EmptyString.
Definition recordDelimiter : string := String newline EmptyString.

(** [str.includes(c)] for a one-character needle. *)
Fixpoint includes (c : ascii) (str : string) : bool :=
  match str with
  | EmptyString => false
  | String d rest => Ascii.eqb d c || includes c rest
  end.

(** [field.replace] of every double quote by two double quotes. *)
Fixpoint double_quotes (field : string) : string :=
  match field with
  | EmptyString => EmptyString
  | String c rest =>
      if Ascii.eqb c dquote then String dquote (String dquote (double_quotes rest))
      else String c (double_quotes rest)
  end.

Definition quoteField (field : string) : string :=
  String dquote (double_quotes field ++ String dquote EmptyString).

Definition needsQuote (str : string) : bool :=
  includes comma str || includes newline str || includes dquote str.

(** The field stringifier: [undefined], [null] and the empty string give an
    empty field; anything else is [String(value)], quoted when needed. *)
Definition field_isEmpty (value : option scalar) : bool :=
  match value with
  | None => true
  | Some SNull => true
  | Some (SStr EmptyString) => true
  | Some _ => false
  end.

Definition stringify (value : option scalar) : string :=
  if field_isEmpty value then ""
  else
    let str := String_of value in
    if needsQuote str then quoteField str else str.

Definition getCsvLine (record : list (option scalar)) : string :=
  String.concat fieldDelimiter (map stringify record).

Definition joinRecords (records : list string) : string :=
  String.concat recordDelimiter records ++ recordDelimiter.

Definition getHeaderRecord : list (option scalar) :=
  map (fun h => Some (SStr (snd h))) header.

Definition getHeaderString : string :=
  joinRecords [getCsvLine getHeaderRecord].

(** [record[field.id]] for each header field. *)
Definition getRecordAsArray (record : gmap string scalar) : list (option scalar) :=
  map (fun h => record !! fst h) header.

Definition stringifyRecords (records : list (gmap string scalar)) : string :=
  joinRecords (map (fun record => getCsvLine (getRecordAsArray record)) records).

(** [csvWriter.writeRecords(records)], on the file [clients.csv] ([None]
    when it does not exist).  A write that fails rejects the promise with the
    I/O error: the file is left as it was and neither flag is set. *)
Definition writeRecords (w : CsvWriter) (file : option string)
    (io_fault : option string) (records : list (gmap string scalar))
    : CsvWriter * option string * option string :=
  let recordsString := stringifyRecords records in
  let headerString := if append w then "" else getHeaderString in
  let writeString := headerString ++ recordsString in
  match io_fault with
  | Some error_message => (w, file, Some error_message)
  | None =>
      let content :=
        if fileWriter_append w then
          match file with
          | Some old => old ++ writeString
          | None => writeString
          end
        else writeString in
      ({| append := true; fileWriter_append := true |}, Some content, None)
  end.

(** ** The server: connection, CSV writer, export file and log *)

Record server := {
  connection : datastore;
  csvWriter : CsvWriter;
  clients_csv : option string;
  combined_log : list string
}.

(** [GET /api/clients/export] *)

Record export_env := {
  export_now : string;
  read_fault : option mysql_error;
  write_fault : option string
}.

Definition export_clients (env : export_env) (srv : server) : server * http_response :=
  match read_fault env with
  | Some err =>
      ({| connection := connection srv;
          csvWriter := csvWriter srv;
          clients_csv := clients_csv srv;
          combined_log :=
            combined_log srv ++ ["Error fetching clients: " ++ err_stack err] |},
       json_response 500 (JObject
         [ ("code", JNum (-100));
           ("response", JStr "Internal error");
           ("info", JObject [("error", JStr "Database error")]);
           ("leadId", JNull);
           ("processTime", JNum 0);
           ("timestamp", JStr (export_now env)) ]))
  | None =>
      let rows := map row_columns (clients (connection srv)) in
      match writeRecords (csvWriter srv) (clients_csv srv) (write_fault env) rows with
      | (w, file, None) =>
          ({| connection := connection srv;
              csvWriter := w;
              clients_csv := file;
              combined_log := combined_log srv |},
           download_response "clients.csv" (default "" file))
      | (w, file, Some error_message) =>
          ({| connection := connection srv;
              csvWriter := w;
              clients_csv := file;
              combined_log :=
                combined_log srv ++ ["Error writing CSV file: " ++ error_message] |},
           json_response 500 (JObject
             [ ("code", JNum (-100));
               ("response", JStr "Internal error");
               ("info", JObject [("error", JStr "CSV writing error")]);
               ("leadId", JNull);
               ("processTime", JNum 0);
               ("timestamp", JStr (export_now env)) ]))
      end
  end.

(** The add route on the whole server: it only touches the connection. *)
Definition add_client_route (env : add_env) (srv : server) (body : request_body)
    : server * http_response :=
  let '(db, response) := add_client env (connection srv) body in
  ({| connection := db;
      csvWriter := csvWriter srv;
      clients_csv := clients_csv srv;
      combined_log := combined_log srv |},
   response).

Inductive request :=
| POST_clients_add (env : add_env) (body : request_body)
| GET_clients_export (env : export_env).

Definition handle (srv : server) (req : request) : server * http_response :=
  match req with
  | POST_clients_add env body => add_client_route env srv body
  | GET_clients_export env => export_clients env srv
  end.

(** The server after a sequence of requests, oldest first. *)
Definition run (srv : server) (reqs : list request) : server :=
  fold_left (fun s req => fst (handle s req)) reqs srv.

(** A server that has just started: the writer is fresh; the table and a
    file left by an earlier process are whatever they are. *)
Definition boot (db : datastore) (file : option string) : server :=
  {| connection := db;
     csvWriter := createObjectCsvWriter;
     clients_csv := file;
     combined_log := [] |}.

(** ** Vocabulary of the specification *)

(** The uniform envelope [{code, response, info, leadId, processTime,
    timestamp}]. *)
Definition envelope (code : Z) (response : string) (info leadId : json)
    (processTime : Z) (timestamp : string) : json :=
  JObject
    [ ("code", JNum code);
      ("response", JStr response);
      ("info", info);
      ("leadId", leadId);
      ("processTime", JNum processTime);
      ("timestamp", JStr timestamp) ].

Definition envelope_fields : list string :=
  [ "code"; "response"; "info"; "leadId"; "processTime"; "timestamp" ].

(** The field names of a JSON body, in order. *)
Definition body_fields (body : json) : list string :=
  match body with
  | JObject members => map fst members
  | _ => []
  end.

(** The numeric [code] of a response, when it has one. *)
Definition response_code (r : http_response) : option Z :=
  match r with
  | json_response _ (JObject members) =>
      match member "code" members with
      | Some (JNum n) => Some n
      | _ => None
      end
  | _ => None
  end.

(** The submitted phone number equals the one of row [r], as the lookup
    query compares them. *)
Definition same_phone (body : request_body) (r : client_row) : bool :=
  sql_eq (column "phone_number" r) (sql_param (body !! "phone_number")).

(** The fields of the duplicate-phone body. *)
Definition duplicate_fields : list string :=
  [ "code"; "response"; "description"; "leadId"; "processTime"; "timestamp" ].

(** A required text field that is missing or empty. *)
Definition blank (value : option scalar) : Prop :=
  value = None \/ value = Some SNull \/ value = Some (SStr "").

(** [HH:MM:SS] with HH in 00-23 and MM, SS in 00-59. *)
Definition two_digits (n : nat) : string :=
  String (ascii_of_nat (48 + n / 10)) (String (ascii_of_nat (48 + n mod 10)) EmptyString).

Definition HH_MM_SS (s : string) : Prop :=
  exists hh mm ss : nat,
    (hh < 24)%nat /\ (mm < 60)%nat /\ (ss < 60)%nat /\
    s = two_digits hh ++ ":" ++ two_digits mm ++ ":" ++ two_digits ss.

(** The pattern read character by character: what the eight characters
    must be. *)
Definition hour_ok (a b : ascii) : bool :=
  (in_range "0" "1" a && in_range "0" "9" b) || (in_range "2" "2" a && in_range "0" "3" b).
Definition sixty_ok (a b : ascii) : bool := in_range "0" "5" a && in_range "0" "9" b.
Definition colon_ok (a : ascii) : bool := in_range ":" ":" a.

Definition time_shape (s : string) : bool :=
  match s with
  | String h1 (String h2 (String c1 (String m1 (String m2 (String c2 (String s1 (String s2 EmptyString))))))) =>
      hour_ok h1 h2 && colon_ok c1 && sixty_ok m1 m2 && colon_ok c2 && sixty_ok s1 s2
  | _ => false
  end.

(** A regular expression that matches no string at all. *)
Fixpoint void (r : regex) : bool :=
  match r with
  | Nothing => true
  | Eps => false
  | Range _ _ => false
  | Seq r1 r2 => void r1 || void r2
  | Alt r1 r2 => void r1 && void r2
  end.

(** ** Reading a CSV file

    The columns of the export are what a reader of the file sees.  The reader
    below follows RFC 4180 with the writer's delimiters: records end with a
    line feed, fields are separated by commas, a field may be enclosed in
    double quotes, inside which a double quote is written twice. *)

Inductive reader_state :=
| FieldStart
| Unquoted
| Quoted
| QuoteSeen.

(** [field] is the text of the current field so far, [record] the fields of
    the current record so far, last first. *)
Fixpoint read_csv (st : reader_state) (field : string) (record : list string)
    (input : string) : list (list string) :=
  match input with
  | EmptyString =>
      match st, record with
      | FieldStart, [] => []
      | _, _ => [rev (field :: record)]
      end
  | String c rest =>
      match st with
      | FieldStart =>
          if Ascii.eqb c dquote then read_csv Quoted "" record rest
          else if Ascii.eqb c comma then read_csv FieldStart "" ("" :: record) rest
          else if Ascii.eqb c newline then
            rev ("" :: record) :: read_csv FieldStart "" [] rest
          else read_csv Unquoted (String c "") record rest
      | Unquoted =>
          if Ascii.eqb c comma then read_csv FieldStart "" (field :: record) rest
          else if Ascii.eqb c newline then
            rev (field :: record) :: read_csv FieldStart "" [] rest
          else read_csv Unquoted (field ++ String c "") record rest
      | Quoted =>
          if Ascii.eqb c dquote then read_csv QuoteSeen field record rest
          else read_csv Quoted (field ++ String c "") record rest
      | QuoteSeen =>
          if Ascii.eqb c dquote then read_csv Quoted (field ++ String c "") record rest
          else if Ascii.eqb c comma then read_csv FieldStart "" (field :: record) rest
          else if Ascii.eqb c newline then
            rev (field :: record) :: read_csv FieldStart "" [] rest
          else read_csv Unquoted (field ++ String c "") record rest
      end
  end.

Definition parse_csv (content : string) : list (list string) :=
  read_csv FieldStart "" [] content.

(** The text a reader gets back for a value handed to the writer. *)
Definition field_text (value : option scalar) : string :=
  if field_isEmpty value then "" else String_of value.

(** A file made of whole lines of the writer; an empty record is an empty
    line. *)
Fixpoint csv_lines (records : list (list (option scalar))) : string :=
  match records with
  | [] => ""
  | record :: rest => getCsvLine record ++ recordDelimiter ++ csv_lines rest
  end.

(** What the reader returns for a line of the writer. *)
Definition record_text (record : list (option scalar)) : list string :=
  match record with
  | [] => [""]
  | _ :: _ => map field_text record
  end.

(** After a field comes a comma or a line feed. *)
Definition after_field (delimiter : ascii) (text : string) (record : list string)
    (rest : string) : list (list string) :=
  if Ascii.eqb delimiter comma then read_csv FieldStart "" (text :: record) rest
  else rev (text :: record) :: read_csv FieldStart "" [] rest.

(** The records a call of [stringifyRecords] writes as lines: for no row
    at all, one empty line. *)
Definition written_records (rows : list (gmap string scalar))
    : list (list (option scalar)) :=
  match rows with
  | [] => [[]]
  | _ :: _ => map getRecordAsArray rows
  end.

(** The row a successful INSERT adds for a submission. *)
Definition inserted_row (db : datastore) (body : request_body) : client_row :=
  {| row_id := auto_increment db;
     row_columns :=
       list_to_map (zip insert_columns
                      (map sql_param (map (fun c => body !! c) insert_columns))) |}.

(** Once the file writer appends, the export file holds whole lines of the
    writer. *)
Definition file_written (srv : server) : Prop :=
  fileWriter_append (csvWriter srv) = true ->
  exists records, clients_csv srv = Some (csv_lines records).

(** The error a chain records when it fails. *)
Definition chain_error (body : request_body) (c : chain) : validation_error :=
  {| error_value := body !! chain_field c;
     error_msg := chain_message c;
     error_param := chain_field c;
     error_location := "body" |}.

(** A chain is checked unless it is optional and its field is undefined. *)
Definition chain_checked (body : request_body) (c : chain) : Prop :=
  chain_optional c = true -> body !! chain_field c <> None.

(** The validation rules in the words of the specification: [violates body
    f] when the rule of field [f] is broken by the submission. *)
Inductive violates (body : request_body) : string -> Prop :=
| title_blank :
    blank (body !! "title") -> violates body "title"
| name_blank :
    blank (body !! "name") -> violates body "name"
| surname_blank :
    blank (body !! "surname") -> violates body "surname"
| phone_number_format :
    validator_isMobilePhone (toString (body !! "phone_number")) = false ->
    violates body "phone_number"
| id_number_length :
    String.length (toString (body !! "id_number")) <> 13%nat ->
    violates body "id_number"
| email_format :
    validator_isEmail (toString (body !! "email")) = false ->
    violates body "email"
| optindate_format v :
    body !! "optindate" = Some v ->
    validator_isISO8601 (toString (Some v)) = false ->
    violates body "optindate"
| preferred_time_format v :
    body !! "preferred_time" = Some v ->
    ~ HH_MM_SS (toString (Some v)) ->
    violates body "preferred_time"
| offerID_type v :
    body !! "offerID" = Some v ->
    (forall s, v <> SStr s) ->
    violates body "offerID".

(** ** Sample requests *)

Definition john_doe : request_body :=
  list_to_map
    [ ("title", SStr "Mr."); ("name", SStr "John"); ("surname", SStr "Doe");
      ("phone_number", SStr "+27123456789");
      ("id_number", SStr "1234567890123");
      ("email", SStr "john.doe@example.com") ].

Definition john_doe_full : request_body :=
  <["notes" := SStr "Evenings, not mornings"]>
  (<["optindate" := SStr "2024-07-31"]>
  (<["preferred_time" := SStr "18:00:00"]>
  (<["offerID" := SStr "Offer123"]> john_doe))).

Definition empty_table : datastore := {| clients := []; auto_increment := 101 |}.

Definition quiet : add_env :=
  {| add_now := "2024-07-31T12:59:15.607Z"; lookup_fault := None; insert_fault := None |}.

Definition connection_lost : mysql_error :=
  {| err_message := "Connection lost"; err_stack := "Error: Connection lost at Socket" |}.

Definition quiet_export : export_env :=
  {| export_now := "2024-07-31T13:00:00.000Z"; read_fault := None; write_fault := None |}.

Definition lookup_down : add_env :=
  {| add_now := "2024-07-31T12:59:15.607Z";
     lookup_fault := Some connection_lost; insert_fault := None |}.

Definition insert_down : add_env :=
  {| add_now := "2024-07-31T12:59:15.607Z";
     lookup_fault := None; insert_fault := Some connection_lost |}.

Definition read_down : export_env :=
  {| export_now := "2024-07-31T13:00:00.000Z";
     read_fault := Some connection_lost; write_fault := None |}.

Definition disk_full : export_env :=
  {| export_now := "2024-07-31T13:00:00.000Z";
     read_fault := None; write_fault := Some "ENOSPC: no space left on device" |}.

(** The table after John Doe has been added to the empty one. *)
Definition one_client : datastore :=
  {| clients := [inserted_row empty_table john_doe]; auto_increment := 102 |}.

(** A short ID number and an hour that does not exist. *)
Definition bad_submission : request_body :=
  <["id_number" := SStr "12345"]> (<["preferred_time" := SStr "24:00:00"]> john_doe).

(** Thirteen letters as ID number. *)
Definition letters_id : request_body :=
  <["id_number" := SStr "ABCDEFGHIJKLM"]> john_doe.

Definition john_doe_line : string :=
  "Mr.,John,Doe,+27123456789,1234567890123,john.doe@example.com,,,," ++ recordDelimiter.

Definition john_doe_full_line : string :=
  "Mr.,John,Doe,+27123456789,1234567890123,john.doe@example.com," ++
  String dquote ("Evenings, not mornings" ++
  String dquote (",2024-07-31,18:00:00,Offer123" ++ recordDelimiter)).

(** ** The insert route, callback by callback

    The handler does not run in one piece: it sends the lookup and returns;
    the lookup's callback sends the INSERT and returns; the INSERT's callback
    answers.  Other requests may have their queries executed in between, so
    the INSERT may meet a table that is no longer the one the lookup saw. *)

Inductive lookup_outcome :=
| Responded (response : http_response)
| Inserting (params : list (option scalar)).

(** Lines 213-249: validation, the lookup, and its callback up to the point
    where the INSERT is sent. *)
Definition add_client_lookup (env : add_env) (db : datastore) (body : request_body)
    : lookup_outcome :=
  let errors := validationResult body in
  if negb (isEmpty errors) then
    Responded (json_response 400 (JObject
      [ ("code", JNum (-5));
        ("response", JStr "Validation error");
        ("info", JArray (map JValidationError errors));
        ("leadId", JNull);
        ("processTime", JNum 0);
        ("timestamp", JStr (add_now env)) ]))
  else
    let params := map (fun c => body !! c) insert_columns in
    match checkQuery (lookup_fault env) db (body !! "phone_number") with
    | inl err =>
        Responded (json_response 500 (JObject
          [ ("code", JNum (-100));
            ("response", JStr "Internal error");
            ("info", JObject [("error", JStr "Database error")]);
            ("leadId", JNull);
            ("processTime", JNum 0);
            ("timestamp", JStr (add_now env)) ]))
    | inr results =>
        if (0 <? length results)%nat then
          Responded (json_response 400 (JObject
            [ ("code", JNum (-2));
              ("response", JStr "Invalid Lead");
              ("description", JStr "Duplicate");
              ("leadId", JNull);
              ("processTime", JNum 0);
              ("timestamp", JStr (add_now env)) ]))
        else Inserting params
    end.

(** Lines 250-276: the INSERT and its callback. *)
Definition add_client_insert (env : add_env) (db : datastore)
    (params : list (option scalar)) : datastore * http_response :=
  let '(db', outcome) := insertQuery (insert_fault env) db params in
  let response :=
    [ ("code", JNum 1);
      ("response", JStr "OK");
      ("info", JArray []);
      ("leadId", JNull);
      ("processTime", JNum 0);
      ("timestamp", JStr (add_now env)) ] in
  let response :=
    match outcome with
    | inl err =>
        [ ("code", JNum (-100));
          ("response", JStr "Internal error");
          ("info", JObject [("error", JStr "Database error")]);
          ("leadId", JNull);
          ("processTime", JNum 0);
          ("timestamp", JStr (add_now env)) ]
    | inr insertId => set_member "leadId" (JNum insertId) response
    end in
  (db', json_response
          (match member "code" response with
           | Some (JNum 1) => 201
           | _ => 400
           end)
          (JObject response)).

(** ** Further vocabulary *)

(** No two rows of the table have the same phone number, as the lookup
    compares them. *)
Definition phones_distinct (rows : list client_row) : Prop :=
  forall (i j : nat) (r1 r2 : client_row),
    rows !! i = Some r1 -> rows !! j = Some r2 -> i <> j ->
    sql_eq (column "phone_number" r1) (column "phone_number" r2) = false.

(** What a request adds to the log: nothing for a submission, one line for
    an export whose read or write fails. *)
Definition logged (req : request) : list string :=
  match req with
  | POST_clients_add _ _ => []
  | GET_clients_export env =>
      match read_fault env, write_fault env with
      | Some err, _ => ["Error fetching clients: " ++ err_stack err]
      | None, Some message => ["Error writing CSV file: " ++ message]
      | None, None => []
      end
  end.

(** An export during which nothing fails. *)
Definition untroubled (env : export_env) : Prop :=
  read_fault env = None /\ write_fault env = None.

(** [n] copies of a text, one after the other. *)
Fixpoint copies (n : nat) (text : string) : string :=
  match n with
  | O => ""
  | S n' => copies n' text ++ text
  end.

(** The server has sent [k] exports of the table [db] since it started,
    all successful, and nothing else has touched the table or the file. *)
Definition exported_times (db : datastore) (k : nat) (srv : server) : Prop :=
  connection srv = db /\
  match k with
  | O => csvWriter srv = createObjectCsvWriter
  | S _ =>
      csvWriter srv = {| append := true; fileWriter_append := true |} /\
      clients_csv srv =
        Some (getHeaderString ++
              copies k (stringifyRecords (map row_columns (clients db))))
  end.

(** A successful export some time later. *)
Definition later_export : export_env :=
  {| export_now := "2024-07-31T13:05:00.000Z"; read_fault := None; write_fault := None |}.

(** A second submission with John Doe's phone number. *)
Definition jane_doe : request_body :=
  <["title" := SStr "Ms."]> (<["name" := SStr "Jane"]> john_doe).

(** The error recorded for an ID number of five digits. *)
Definition short_id_error : validation_error :=
  {| error_value := Some (SStr "12345");
     error_msg := "ID number must be 13 digits";
     error_param := "id_number";
     error_location := "body" |}.

(** A time sent as [null], and an offer sent as a number. *)
Definition null_time : request_body := <["preferred_time" := SNull]> john_doe.
Definition numeric_offer : request_body := <["offerID" := SNum 123]> john_doe.

(** ** The [preferred_time] pattern *)

Lemma void_not_nullable r : void r = true -> nullable r = false.
Proof.
  induction r; cbn; intros H; try discriminate; try reflexivity.
  - apply orb_true_iff in H as [H|H]; [rewrite IHr1 | rewrite IHr2, andb_false_r]; auto.
  - apply andb_true_iff in H as [H1 H2]. rewrite IHr1, IHr2; auto.
Qed.

Lemma void_deriv c r : void r = true -> void (deriv c r) = true.
Proof.
  induction r; cbn; intros H; try discriminate; try reflexivity.
  - apply orb_true_iff in H as [H|H].
    + rewrite (void_not_nullable _ H). cbn. rewrite IHr1; auto.
    + destruct (nullable r1); cbn; rewrite ?H, ?IHr2, ?orb_true_r; auto.
  - apply andb_true_iff in H as [H1 H2]. rewrite IHr1, IHr2; auto.
Qed.

Lemma regex_test_void r s : void r = true -> regex_test r s = false.
Proof.
  revert r. induction s as [|c s IH]; intros r H; cbn.
  - apply void_not_nullable, H.
  - apply IH, void_deriv, H.
Qed.

Ltac regex_cbn :=
  cbn [regex_test deriv nullable preferred_time_pattern digit chr andb orb].
Ltac step_regex :=
  regex_cbn;
  repeat match goal with
  | |- context [in_range ?a ?b ?c] => destruct (in_range a b c) eqn:?; regex_cbn
  end.

Lemma regex_test_time_shape s : regex_test preferred_time_pattern s = time_shape s.
Proof.
  unfold time_shape, hour_ok, sixty_ok, colon_ok.
  destruct s as [|h1 s]; [reflexivity|].
  destruct s as [|h2 s]; [step_regex; reflexivity|].
  destruct s as [|c1 s]; [step_regex; reflexivity|].
  destruct s as [|m1 s]; [step_regex; reflexivity|].
  destruct s as [|m2 s]; [step_regex; reflexivity|].
  destruct s as [|c2 s]; [step_regex; reflexivity|].
  destruct s as [|s1 s]; [step_regex; reflexivity|].
  destruct s as [|s2 s]; [step_regex; reflexivity|].
  destruct s as [|x s]; [step_regex; reflexivity|].
  step_regex; try reflexivity; apply regex_test_void; reflexivity.
Qed.

Lemma in_range_bounds (lo hi c : ascii) (l h : nat) :
  nat_of_ascii lo = l -> nat_of_ascii hi = h ->
  in_range lo hi c = true -> (l <= nat_of_ascii c /\ nat_of_ascii c <= h)%nat.
Proof.
  intros <- <-. unfold in_range. rewrite andb_true_iff, !Nat.leb_le. tauto.
Qed.

Lemma in_range_intro (lo hi c : ascii) (l h : nat) :
  nat_of_ascii lo = l -> nat_of_ascii hi = h ->
  (l <= nat_of_ascii c /\ nat_of_ascii c <= h)%nat -> in_range lo hi c = true.
Proof.
  intros <- <-. unfold in_range. rewrite andb_true_iff, !Nat.leb_le. tauto.
Qed.

Lemma digit_pair (a b : ascii) (x : nat) :
  in_range "0" "9" b = true ->
  nat_of_ascii a = (48 + x)%nat ->
  two_digits (10 * x + (nat_of_ascii b - 48)) = String a (String b EmptyString).
Proof.
  intros Hb Ha.
  apply (in_range_bounds "0" "9" _ 48 57 eq_refl eq_refl) in Hb.
  set (y := (nat_of_ascii b - 48)%nat).
  assert (Hy : (y < 10)%nat) by (unfold y; lia).
  unfold two_digits.
  replace ((10 * x + y) / 10)%nat with x
    by (apply (Nat.div_unique _ 10 x y); lia).
  replace ((10 * x + y) mod 10)%nat with y
    by (apply (Nat.mod_unique _ 10 x y); lia).
  rewrite <- Ha, ascii_nat_embedding.
  replace (48 + y)%nat with (nat_of_ascii b) by (unfold y; lia).
  rewrite ascii_nat_embedding. reflexivity.
Qed.

Lemma hour_ok_spec a b :
  hour_ok a b = true <->
  exists hh, (hh < 24)%nat /\ two_digits hh = String a (String b EmptyString).
Proof.
  split.
  - unfold hour_ok. rewrite orb_true_iff, !andb_true_iff.
    intros [[Ha Hb] | [Ha Hb]].
    + apply (in_range_bounds "0" "1" _ 48 49 eq_refl eq_refl) in Ha.
      pose proof (in_range_bounds "0" "9" _ 48 57 eq_refl eq_refl Hb) as Hb'.
      exists (10 * (nat_of_ascii a - 48) + (nat_of_ascii b - 48))%nat.
      split; [lia | apply digit_pair; [exact Hb | lia]].
    + apply (in_range_bounds "2" "2" _ 50 50 eq_refl eq_refl) in Ha.
      apply (in_range_bounds "0" "3" _ 48 51 eq_refl eq_refl) in Hb.
      exists (10 * 2 + (nat_of_ascii b - 48))%nat.
      split; [lia | apply digit_pair; [|lia]].
      apply (in_range_intro "0" "9" _ 48 57 eq_refl eq_refl). lia.
  - intros (hh & Hlt & Heq). injection Heq as <- <-.
    do 24 (destruct hh as [|hh]; [reflexivity|]). lia.
Qed.

Lemma sixty_ok_spec a b :
  sixty_ok a b = true <->
  exists n, (n < 60)%nat /\ two_digits n = String a (String b EmptyString).
Proof.
  split.
  - unfold sixty_ok. rewrite andb_true_iff. intros [Ha Hb].
    apply (in_range_bounds "0" "5" _ 48 53 eq_refl eq_refl) in Ha.
    pose proof (in_range_bounds "0" "9" _ 48 57 eq_refl eq_refl Hb) as Hb'.
    exists (10 * (nat_of_ascii a - 48) + (nat_of_ascii b - 48))%nat.
    split; [lia | apply digit_pair; [exact Hb | lia]].
  - intros (n & Hlt & Heq). injection Heq as <- <-.
    do 60 (destruct n as [|n]; [reflexivity|]). lia.
Qed.

Lemma colon_ok_spec c : colon_ok c = true <-> c = ":"%char.
Proof.
  split.
  - intros H. apply (in_range_bounds ":" ":" _ 58 58 eq_refl eq_refl) in H.
    rewrite <- (ascii_nat_embedding c).
    replace (nat_of_ascii c) with 58%nat by lia. reflexivity.
  - intros ->. reflexivity.
Qed.

Lemma time_shape_spec s : time_shape s = true <-> HH_MM_SS s.
Proof.
  split.
  - unfold time_shape.
    destruct s as [|h1 [|h2 [|c1 [|m1 [|m2 [|c2 [|s1 [|s2 [|x s]]]]]]]]]; try discriminate.
    rewrite !andb_true_iff. intros [[[[Hh Hc1] Hm] Hc2] Hs].
    apply hour_ok_spec in Hh as (hh & Hhh & Eh).
    apply sixty_ok_spec in Hm as (mm & Hmm & Em).
    apply sixty_ok_spec in Hs as (ss & Hss & Es).
    apply colon_ok_spec in Hc1 as ->. apply colon_ok_spec in Hc2 as ->.
    exists hh, mm, ss. repeat split; try assumption.
    rewrite Eh, Em, Es. reflexivity.
  - intros (hh & mm & ss & Hhh & Hmm & Hss & ->).
    change (hour_ok (ascii_of_nat (48 + hh / 10)) (ascii_of_nat (48 + hh mod 10)) &&
            colon_ok ":" &&
            sixty_ok (ascii_of_nat (48 + mm / 10)) (ascii_of_nat (48 + mm mod 10)) &&
            colon_ok ":" &&
            sixty_ok (ascii_of_nat (48 + ss / 10)) (ascii_of_nat (48 + ss mod 10)) = true).
    rewrite !andb_true_iff. repeat split.
    + apply hour_ok_spec. exists hh. split; [assumption | reflexivity].
    + apply sixty_ok_spec. exists mm. split; [assumption | reflexivity].
    + apply sixty_ok_spec. exists ss. split; [assumption | reflexivity].
Qed.

(** The pattern accepts exactly the times [HH:MM:SS] of a 24-hour clock. *)
Lemma preferred_time_pattern_spec s :
  regex_test preferred_time_pattern s = true <-> HH_MM_SS s.
Proof. rewrite regex_test_time_shape. apply time_shape_spec. Qed.

(** ** The insert route *)

Lemma filter_nil_Forall {A} (f : A -> bool) (l : list A) :
  Forall (fun x => f x = false) l -> List.filter f l = [].
Proof.
  induction 1 as [|x l Hx _ IH]; simpl; [reflexivity|].
  rewrite Hx. exact IH.
Qed.

Lemma filter_cons_Exists {A} (f : A -> bool) (l : list A) :
  Exists (fun x => f x = true) l -> (0 <? length (List.filter f l))%nat = true.
Proof.
  induction 1 as [x l Hx | x l _ IH]; simpl.
  - rewrite Hx. reflexivity.
  - destruct (f x); [reflexivity | exact IH].
Qed.

Ltac add_client_start H :=
  unfold add_client; rewrite H; cbn [isEmpty negb].

(** Evaluates the reads and writes of the response object's fields. *)
Ltac response_fields :=
  cbn [set_member member String.eqb Ascii.eqb Bool.eqb].

(** C1. A submission that passes validation, whose phone number matches no
    row, and whose lookup and insert succeed, is answered with status 201
    and the envelope with code 1, response OK, an empty info array,
    processTime 0 and, as leadId, the identifier generated for the row that
    the table gained. *)
Theorem add_client_created (env : add_env) (db : datastore) (body : request_body) :
  validationResult body = [] ->
  Forall (fun r => same_phone body r = false) (clients db) ->
  lookup_fault env = None ->
  insert_fault env = None ->
  exists (db' : datastore) (row : client_row),
    add_client env db body =
      (db', json_response 201
              (envelope 1 "OK" (JArray []) (JNum (row_id row)) 0 (add_now env))) /\
    clients db' = (clients db ++ [row])%list /\
    row_id row = auto_increment db.
Proof.
  intros Hvalid Hfresh Hlookup Hinsert. unfold same_phone in Hfresh.
  add_client_start Hvalid.
  unfold checkQuery. rewrite Hlookup.
  rewrite (filter_nil_Forall _ _ Hfresh). cbn [length Nat.ltb Nat.leb].
  unfold insertQuery. rewrite Hinsert. response_fields.
  eexists (Build_datastore _ _), (Build_client_row _ _).
  cbn [row_id clients]. repeat split.
Qed.

(** C3. A submission that passes validation and whose phone number equals
    that of an existing row is answered with status 400, code -2, response
    Invalid Lead and description Duplicate, and the table is left as it
    was. *)
Theorem add_client_duplicate (env : add_env) (db : datastore) (body : request_body) :
  validationResult body = [] ->
  lookup_fault env = None ->
  Exists (fun r => same_phone body r = true) (clients db) ->
  add_client env db body =
    (db, json_response 400 (JObject
      [ ("code", JNum (-2));
        ("response", JStr "Invalid Lead");
        ("description", JStr "Duplicate");
        ("leadId", JNull);
        ("processTime", JNum 0);
        ("timestamp", JStr (add_now env)) ])).
Proof.
  intros Hvalid Hlookup Hdup. unfold same_phone in Hdup.
  add_client_start Hvalid.
  unfold checkQuery. rewrite Hlookup.
  rewrite (filter_cons_Exists _ _ Hdup). reflexivity.
Qed.

(** C5. A datastore failure is answered with code -100, response Internal
    error and info [{error: Database error}]: with status 500 when the
    duplicate lookup fails and when the export read fails, with status 400
    when the insert itself fails.  The body is the same whatever the error
    object holds. *)
Theorem datastore_error_responses :
  (forall env db body err,
      validationResult body = [] ->
      lookup_fault env = Some err ->
      add_client env db body =
        (db, json_response 500
               (envelope (-100) "Internal error"
                  (JObject [("error", JStr "Database error")]) JNull 0 (add_now env)))) /\
  (forall env db body err,
      validationResult body = [] ->
      lookup_fault env = None ->
      Forall (fun r => same_phone body r = false) (clients db) ->
      insert_fault env = Some err ->
      add_client env db body =
        (db, json_response 400
               (envelope (-100) "Internal error"
                  (JObject [("error", JStr "Database error")]) JNull 0 (add_now env)))) /\
  (forall env srv err,
      read_fault env = Some err ->
      snd (export_clients env srv) =
        json_response 500
          (envelope (-100) "Internal error"
             (JObject [("error", JStr "Database error")]) JNull 0 (export_now env))).
Proof.
  split; [|split].
  - intros env db body err Hvalid Hlookup.
    add_client_start Hvalid. unfold checkQuery. rewrite Hlookup. reflexivity.
  - intros env db body err Hvalid Hlookup Hfresh Hinsert. unfold same_phone in Hfresh.
    add_client_start Hvalid. unfold checkQuery. rewrite Hlookup.
    rewrite (filter_nil_Forall _ _ Hfresh). cbn [length Nat.ltb Nat.leb].
    unfold insertQuery. rewrite Hinsert. response_fields. reflexivity.
  - intros env srv err Hread.
    unfold export_clients. rewrite Hread. reflexivity.
Qed.

(** C6. The insert route adds exactly one row when it answers with code 1,
    and leaves the datastore as it was on every other path. *)
Theorem add_client_rows (env : add_env) (db : datastore) (body : request_body) :
  (response_code (snd (add_client env db body)) = Some 1 ->
   exists row, clients (fst (add_client env db body)) = (clients db ++ [row])%list) /\
  (response_code (snd (add_client env db body)) <> Some 1 ->
   fst (add_client env db body) = db).
Proof.
  unfold add_client.
  destruct (isEmpty (validationResult body)); cbn [negb].
  2:{ split; [discriminate | reflexivity]. }
  destruct (checkQuery (lookup_fault env) db (body !! "phone_number")) as [err|results].
  { split; [discriminate | reflexivity]. }
  destruct (0 <? length results)%nat.
  { split; [discriminate | reflexivity]. }
  unfold insertQuery.
  destruct (insert_fault env) as [err|].
  - response_fields. split; [discriminate | reflexivity].
  - response_fields.
    split; [intros _; eexists; reflexivity | intros H; exfalso; apply H; reflexivity].
Qed.

(** C8. When the read succeeds and writing the CSV fails, the export route
    answers with status 500, code -100, response Internal error and info
    [{error: CSV writing error}]. *)
Theorem export_clients_write_failure (env : export_env) (srv : server) (message : string) :
  read_fault env = None ->
  write_fault env = Some message ->
  snd (export_clients env srv) =
    json_response 500
      (envelope (-100) "Internal error"
         (JObject [("error", JStr "CSV writing error")]) JNull 0 (export_now env)).
Proof.
  intros Hread Hwrite.
  unfold export_clients, writeRecords. rewrite Hread, Hwrite. reflexivity.
Qed.

(** ** Validation *)

Lemma string_of_int_nonempty (n : Z) : NilZero.string_of_int (Z.to_int n) <> "".
Proof.
  destruct (Z.to_int n) as [d|d]; cbn; [|discriminate].
  destruct d; discriminate.
Qed.

Lemma toString_blank (value : option scalar) : toString value = "" <-> blank value.
Proof.
  unfold blank. split.
  - destruct value as [[s|n|[|]|]|]; cbn; intros H; try discriminate; auto.
    + subst s. auto.
    + exfalso. exact (string_of_int_nonempty n H).
  - intros [-> | [-> | ->]]; reflexivity.
Qed.

Lemma notEmpty_fails (value : option scalar) :
  run_validator notEmpty value = false <-> blank value.
Proof.
  cbn [run_validator]. rewrite negb_false_iff, String.eqb_eq. apply toString_blank.
Qed.

Lemma isLength_13_passes (value : option scalar) :
  run_validator (isLength 13 13) value = true <->
  String.length (toString value) = 13%nat.
Proof.
  cbn [run_validator]. rewrite andb_true_iff, !Nat.leb_le. lia.
Qed.

Lemma isLength_13_fails (value : option scalar) :
  run_validator (isLength 13 13) value = false <->
  String.length (toString value) <> 13%nat.
Proof.
  rewrite <- isLength_13_passes. destruct (run_validator _ _); split; congruence.
Qed.

Lemma matches_time_fails (value : option scalar) :
  run_validator (matches preferred_time_pattern) value = false <->
  ~ HH_MM_SS (toString value).
Proof.
  cbn [run_validator]. rewrite <- preferred_time_pattern_spec.
  destruct (regex_test _ _); split; congruence.
Qed.

Lemma isString_fails (v : scalar) :
  run_validator isString (Some v) = false <-> forall s, v <> SStr s.
Proof.
  cbn [run_validator]. destruct v; split; try congruence.
  intros H. exfalso. exact (H _ eq_refl).
Qed.

Lemma in_run_chain (body : request_body) (c : chain) (e : validation_error) :
  In e (run_chain body c) <->
  e = chain_error body c /\
  chain_checked body c /\
  run_validator (chain_validator c) (body !! chain_field c) = false.
Proof.
  unfold run_chain, chain_error, chain_checked.
  destruct (chain_optional c), (body !! chain_field c) as [v|] eqn:Hv;
    try destruct (run_validator _ _); cbn [In];
    intuition (try congruence; try discriminate).
Qed.

Lemma in_validationResult (body : request_body) (e : validation_error) :
  In e (validationResult body) <->
  exists c, In c add_client_chains /\ In e (run_chain body c).
Proof.
  unfold validationResult. rewrite in_flat_map. reflexivity.
Qed.

(** The errors of [validationResult] name exactly the fields whose rule is
    broken. *)
Lemma validationResult_violates (body : request_body) (field : string) :
  (exists e, In e (validationResult body) /\ error_param e = field) <->
  violates body field.
Proof.
  split.
  - intros (e & Hin & <-).
    apply in_validationResult in Hin as (c & Hc & Hin).
    apply in_run_chain in Hin as (-> & Hchecked & Hfails).
    unfold chain_checked in Hchecked.
    cbn [In add_client_chains] in Hc.
    repeat (destruct Hc as [<- | Hc]); try contradiction;
      cbn [chain_error error_param chain_field chain_validator chain_optional]
        in Hchecked, Hfails |- *.
    + apply title_blank, notEmpty_fails, Hfails.
    + apply name_blank, notEmpty_fails, Hfails.
    + apply surname_blank, notEmpty_fails, Hfails.
    + apply phone_number_format, Hfails.
    + apply id_number_length, isLength_13_fails, Hfails.
    + apply email_format, Hfails.
    + destruct (body !! "optindate") as [v|] eqn:Hv; [|exact (False_ind _ (Hchecked eq_refl eq_refl))].
      apply (optindate_format _ v Hv), Hfails.
    + destruct (body !! "preferred_time") as [v|] eqn:Hv; [|exact (False_ind _ (Hchecked eq_refl eq_refl))].
      apply (preferred_time_format _ v Hv), matches_time_fails, Hfails.
    + destruct (body !! "offerID") as [v|] eqn:Hv; [|exact (False_ind _ (Hchecked eq_refl eq_refl))].
      apply (offerID_type _ v Hv), isString_fails, Hfails.
  - intros Hv.
    assert (Hchain : exists c, In c add_client_chains /\ chain_field c = field /\
                       chain_checked body c /\
                       run_validator (chain_validator c) (body !! chain_field c) = false).
    { unfold chain_checked.
      destruct Hv as [H|H|H|H|H|H|v Hv H|v Hv H|v Hv H].
      - eexists. split; [left; reflexivity|]. cbn.
        repeat split; [discriminate | apply notEmpty_fails, H].
      - eexists. split; [right; left; reflexivity|]. cbn.
        repeat split; [discriminate | apply notEmpty_fails, H].
      - eexists. split; [do 2 right; left; reflexivity|]. cbn.
        repeat split; [discriminate | apply notEmpty_fails, H].
      - eexists. split; [do 3 right; left; reflexivity|]. cbn.
        repeat split; [discriminate | exact H].
      - eexists. split; [do 4 right; left; reflexivity|].
        cbn [chain_field chain_optional chain_validator].
        repeat split; [discriminate | apply isLength_13_fails, H].
      - eexists. split; [do 5 right; left; reflexivity|]. cbn.
        repeat split; [discriminate | exact H].
      - eexists. split; [do 6 right; left; reflexivity|].
        cbn [chain_field chain_optional chain_validator]. rewrite Hv.
        repeat split; [discriminate | exact H].
      - eexists. split; [do 7 right; left; reflexivity|].
        cbn [chain_field chain_optional chain_validator]. rewrite Hv.
        repeat split; [discriminate | apply matches_time_fails, H].
      - eexists. split; [do 8 right; left; reflexivity|].
        cbn [chain_field chain_optional chain_validator]. rewrite Hv.
        repeat split; [discriminate | apply isString_fails, H]. }
    destruct Hchain as (c & Hc & <- & Hchecked & Hfails).
    exists (chain_error body c). split; [|reflexivity].
    apply in_validationResult. exists c. split; [exact Hc|].
    apply in_run_chain. auto.
Qed.

(** C2. When at least one validation rule is broken, the insert route
    answers with status 400, code -5, response Validation error, and an info
    array holding the validation errors, which name every field whose rule
    is broken and no other; the table is left as it was. *)
Theorem add_client_validation_error (env : add_env) (db : datastore)
    (body : request_body) :
  (exists field, violates body field) ->
  exists errors : list validation_error,
    add_client env db body =
      (db, json_response 400
             (envelope (-5) "Validation error"
                (JArray (map JValidationError errors)) JNull 0 (add_now env))) /\
    forall field,
      violates body field <-> exists e, In e errors /\ error_param e = field.
Proof.
  intros (field & Hv).
  exists (validationResult body). split.
  - apply validationResult_violates in Hv as (e & Hin & _).
    unfold add_client.
    destruct (validationResult body) as [|e0 errors]; [contradiction|].
    reflexivity.
  - intros f. symmetry. apply validationResult_violates.
Qed.

(** C10. When [id_number] is a string of exactly 13 characters, whatever the
    characters are, validation records no error for [id_number]; for a
    string of any other length it does. *)
Theorem id_number_checks_length_only (body : request_body) (s : string) :
  body !! "id_number" = Some (SStr s) ->
  (String.length s = 13%nat <->
   forall e, In e (validationResult body) -> error_param e <> "id_number").
Proof.
  intros Hid. split.
  - intros Hlen e Hin Hparam.
    assert (Hv : violates body "id_number")
      by (apply validationResult_violates; eauto).
    inversion Hv as [| | | |Hne| | | |].
    rewrite Hid in Hne. cbn in Hne. contradiction.
  - intros Hnone.
    destruct (Nat.eq_dec (String.length s) 13%nat) as [Heq|Hne]; [exact Heq|].
    exfalso.
    assert (Hv : violates body "id_number").
    { apply id_number_length. rewrite Hid. exact Hne. }
    apply validationResult_violates in Hv as (e & Hin & Hparam).
    exact (Hnone e Hin Hparam).
Qed.

(** ** Writing and reading the export file *)

Lemma append_nil_l (a : string) : "" ++ a = a.
Proof. reflexivity. Qed.

Lemma append_cons (x : ascii) (a b : string) : String x a ++ b = String x (a ++ b).
Proof. reflexivity. Qed.

Lemma append_assoc (a b c : string) : (a ++ b) ++ c = a ++ (b ++ c).
Proof.
  induction a as [|x a IH]; [reflexivity|].
  rewrite !append_cons, IH. reflexivity.
Qed.

Lemma append_nil_r (a : string) : a ++ "" = a.
Proof.
  induction a as [|x a IH]; [reflexivity|].
  rewrite append_cons, IH. reflexivity.
Qed.

Ltac string_cons :=
  repeat (rewrite append_assoc || rewrite append_cons || rewrite append_nil_l).

Lemma needsQuote_cons c str :
  needsQuote (String c str) = false ->
  Ascii.eqb c comma = false /\ Ascii.eqb c newline = false /\
  Ascii.eqb c dquote = false /\ needsQuote str = false.
Proof.
  unfold needsQuote. cbn [includes].
  rewrite !orb_false_iff. tauto.
Qed.

Lemma read_unquoted (str : string) :
  needsQuote str = false ->
  forall field record rest,
    read_csv Unquoted field record (str ++ rest) =
    read_csv Unquoted (field ++ str) record rest.
Proof.
  induction str as [|c str IH]; intros Hq field record rest.
  - rewrite append_nil_r. reflexivity.
  - apply needsQuote_cons in Hq as (Hc & Hn & _ & Hq).
    string_cons. cbn [read_csv]. rewrite Hc, Hn, (IH Hq). string_cons. reflexivity.
Qed.

Lemma read_quoted (str : string) :
  forall field record rest,
    read_csv Quoted field record (double_quotes str ++ String dquote rest) =
    read_csv QuoteSeen (field ++ str) record rest.
Proof.
  induction str as [|c str IH]; intros field record rest.
  - rewrite append_nil_r. reflexivity.
  - cbn [double_quotes]. destruct (Ascii.eqb c dquote) eqn:Hc.
    + apply Ascii.eqb_eq in Hc as ->.
      string_cons. cbn [read_csv]. rewrite Ascii.eqb_refl.
      rewrite IH. string_cons. reflexivity.
    + string_cons. cbn [read_csv]. rewrite Hc, IH. string_cons. reflexivity.
Qed.

Lemma read_delimiter (st : reader_state) (d : ascii) (text : string)
    (record : list string) (rest : string) :
  d = comma \/ d = newline ->
  st = Unquoted \/ st = QuoteSeen ->
  read_csv st text record (String d rest) = after_field d text record rest.
Proof.
  unfold after_field. intros [-> | ->] [-> | ->]; reflexivity.
Qed.

Lemma read_field (value : option scalar) (d : ascii) (record : list string)
    (rest : string) :
  d = comma \/ d = newline ->
  read_csv FieldStart "" record (stringify value ++ String d rest) =
  after_field d (field_text value) record rest.
Proof.
  intros Hd. unfold stringify, field_text.
  destruct (field_isEmpty value).
  - unfold after_field. destruct Hd as [-> | ->]; reflexivity.
  - set (str := String_of value).
    destruct (needsQuote str) eqn:Hq.
    + unfold quoteField. string_cons. cbn [read_csv].
      rewrite Ascii.eqb_refl, read_quoted. string_cons.
      apply read_delimiter; auto.
    + destruct str as [|c str].
      * unfold after_field. destruct Hd as [-> | ->]; reflexivity.
      * apply needsQuote_cons in Hq as (Hc & Hn & Hdq & Hq).
        string_cons. cbn [read_csv]. rewrite Hdq, Hc, Hn.
        rewrite (read_unquoted _ Hq). string_cons.
        apply read_delimiter; auto.
Qed.

Lemma getCsvLine_cons (value : option scalar) (record : list (option scalar)) :
  record <> [] ->
  getCsvLine (value :: record) = stringify value ++ String comma (getCsvLine record).
Proof.
  unfold getCsvLine. destruct record as [|v record]; [congruence|]. reflexivity.
Qed.

Lemma read_line (fields : list (option scalar)) :
  fields <> [] ->
  forall record rest,
    read_csv FieldStart "" record (getCsvLine fields ++ String newline rest) =
    rev (rev (map field_text fields) ++ record) :: read_csv FieldStart "" [] rest.
Proof.
  induction fields as [|v fields IH]; [congruence|].
  intros _ record rest.
  destruct fields as [|w fields].
  - change (getCsvLine [v]) with (stringify v).
    rewrite read_field by auto. reflexivity.
  - rewrite getCsvLine_cons by discriminate.
    string_cons.
    rewrite read_field by auto. unfold after_field. rewrite Ascii.eqb_refl.
    rewrite IH by discriminate.
    cbn [map rev]. rewrite <- !app_assoc. reflexivity.
Qed.

Lemma read_record (fields : list (option scalar)) (rest : string) :
  read_csv FieldStart "" [] (getCsvLine fields ++ String newline rest) =
  record_text fields :: read_csv FieldStart "" [] rest.
Proof.
  destruct fields as [|v fields]; [reflexivity|].
  rewrite read_line by discriminate.
  rewrite app_nil_r, rev_involutive. reflexivity.
Qed.

Lemma parse_csv_lines (records : list (list (option scalar))) (rest : string) :
  parse_csv (csv_lines records ++ rest) = (map record_text records ++ parse_csv rest)%list.
Proof.
  unfold parse_csv. induction records as [|fields records IH]; [reflexivity|].
  cbn [csv_lines map]. unfold recordDelimiter. string_cons.
  rewrite read_record, IH. reflexivity.
Qed.

Lemma csv_lines_app (a b : list (list (option scalar))) :
  csv_lines (a ++ b) = csv_lines a ++ csv_lines b.
Proof.
  induction a as [|r a IH]; [reflexivity|].
  cbn [csv_lines app]. rewrite IH. string_cons. reflexivity.
Qed.

Lemma joinRecords_cons (line : string) (lines : list string) :
  lines <> [] ->
  joinRecords (line :: lines) = line ++ recordDelimiter ++ joinRecords lines.
Proof.
  unfold joinRecords. destruct lines as [|l lines]; [congruence|].
  intros _. cbn [String.concat]. string_cons. reflexivity.
Qed.

Lemma joinRecords_lines (record : list (option scalar)) (records : list (list (option scalar))) :
  joinRecords (map getCsvLine (record :: records)) = csv_lines (record :: records).
Proof.
  revert record. induction records as [|r records IH]; intros record.
  - unfold joinRecords. cbn [map String.concat csv_lines].
    rewrite append_nil_r. reflexivity.
  - cbn [map]. rewrite joinRecords_cons by discriminate.
    cbn [map] in IH. rewrite IH. reflexivity.
Qed.

Lemma stringifyRecords_lines (rows : list (gmap string scalar)) :
  stringifyRecords rows = csv_lines (written_records rows).
Proof.
  unfold stringifyRecords. rewrite <- (map_map getRecordAsArray getCsvLine).
  destruct rows as [|row rows]; [reflexivity|].
  cbn [map written_records]. apply joinRecords_lines.
Qed.

Lemma getHeaderString_lines : getHeaderString = csv_lines [getHeaderRecord].
Proof. unfold getHeaderString. apply (joinRecords_lines getHeaderRecord []). Qed.

(** What a successful export sends: whole lines, ending with the lines of
    the rows now in the table. *)
Lemma export_clients_content (env : export_env) (srv : server) (name content : string) :
  file_written srv ->
  snd (export_clients env srv) = download_response name content ->
  exists before,
    content =
      csv_lines (before ++ written_records (map row_columns (clients (connection srv)))).
Proof.
  unfold file_written, export_clients, writeRecords. intros Hfile.
  destruct (read_fault env); [discriminate|].
  destruct (write_fault env); [discriminate|].
  cbn [snd default]. intros [= _ <-].
  rewrite stringifyRecords_lines, getHeaderString_lines.
  destruct (fileWriter_append (csvWriter srv)).
  - destruct (Hfile eq_refl) as (records & ->).
    destruct (append (csvWriter srv)).
    + exists records. rewrite csv_lines_app. reflexivity.
    + exists (records ++ [getHeaderRecord])%list.
      rewrite !csv_lines_app. string_cons. reflexivity.
  - destruct (append (csvWriter srv)).
    + exists []. reflexivity.
    + exists [getHeaderRecord]. rewrite csv_lines_app. reflexivity.
Qed.

(** ** Requests in sequence *)

(** The insert route either adds the row of the submission and answers with
    code 1, or leaves the datastore alone and answers with another code. *)
Lemma add_client_outcome (env : add_env) (db : datastore) (body : request_body) :
  (response_code (snd (add_client env db body)) = Some 1 /\
   fst (add_client env db body) =
     {| clients := clients db ++ [inserted_row db body];
        auto_increment := auto_increment db + 1 |}) \/
  (response_code (snd (add_client env db body)) <> Some 1 /\
   fst (add_client env db body) = db).
Proof.
  unfold add_client.
  destruct (isEmpty (validationResult body)); cbn [negb].
  2:{ right. split; [discriminate | reflexivity]. }
  destruct (checkQuery (lookup_fault env) db (body !! "phone_number")) as [err|results].
  { right. split; [discriminate | reflexivity]. }
  destruct (0 <? length results)%nat.
  { right. split; [discriminate | reflexivity]. }
  unfold insertQuery.
  destruct (insert_fault env) as [err|]; response_fields.
  - right. split; [discriminate | reflexivity].
  - left. split; reflexivity.
Qed.

Lemma add_client_route_fst (env : add_env) (srv : server) (body : request_body) :
  fst (add_client_route env srv body) =
    {| connection := fst (add_client env (connection srv) body);
       csvWriter := csvWriter srv;
       clients_csv := clients_csv srv;
       combined_log := combined_log srv |}.
Proof.
  unfold add_client_route. destruct (add_client env (connection srv) body). reflexivity.
Qed.

Lemma add_client_route_snd (env : add_env) (srv : server) (body : request_body) :
  snd (add_client_route env srv body) = snd (add_client env (connection srv) body).
Proof.
  unfold add_client_route. destruct (add_client env (connection srv) body). reflexivity.
Qed.

Lemma export_clients_connection (env : export_env) (srv : server) :
  connection (fst (export_clients env srv)) = connection srv.
Proof.
  unfold export_clients.
  destruct (read_fault env); [reflexivity|].
  destruct (writeRecords _ _ _ _) as [[w file] [message|]]; reflexivity.
Qed.

(** No request removes or changes a row: the table only grows at its end. *)
Lemma handle_clients (srv : server) (req : request) :
  exists added,
    clients (connection (fst (handle srv req))) =
      (clients (connection srv) ++ added)%list.
Proof.
  destruct req as [env body | env]; cbn [handle].
  - rewrite add_client_route_fst. cbn [connection].
    destruct (add_client_outcome env (connection srv) body) as [[_ ->] | [_ ->]].
    + eexists. reflexivity.
    + exists []. rewrite app_nil_r. reflexivity.
  - rewrite export_clients_connection. exists []. rewrite app_nil_r. reflexivity.
Qed.

Lemma run_clients (reqs : list request) (srv : server) :
  exists added,
    clients (connection (run srv reqs)) = (clients (connection srv) ++ added)%list.
Proof.
  revert srv. induction reqs as [|req reqs IH]; intros srv.
  - exists []. rewrite app_nil_r. reflexivity.
  - change (run srv (req :: reqs)) with (run (fst (handle srv req)) reqs).
    destruct (IH (fst (handle srv req))) as (added2 & ->).
    destruct (handle_clients srv req) as (added1 & ->).
    exists (added1 ++ added2)%list. rewrite app_assoc. reflexivity.
Qed.

Lemma boot_file_written (db : datastore) (file : option string) :
  file_written (boot db file).
Proof. unfold file_written. cbn. discriminate. Qed.

Lemma handle_file_written (srv : server) (req : request) :
  file_written srv -> file_written (fst (handle srv req)).
Proof.
  intros Hfile. destruct req as [env body | env]; cbn [handle].
  - rewrite add_client_route_fst. exact Hfile.
  - unfold file_written in *. unfold export_clients, writeRecords.
    destruct (read_fault env); [exact Hfile|].
    destruct (write_fault env); [exact Hfile|].
    cbn [fst csvWriter clients_csv fileWriter_append]. intros _.
    rewrite stringifyRecords_lines, getHeaderString_lines.
    destruct (fileWriter_append (csvWriter srv)).
    + destruct (Hfile eq_refl) as (records & ->).
      destruct (append (csvWriter srv)).
      * eexists. rewrite append_nil_l, <- csv_lines_app. reflexivity.
      * eexists. rewrite <- !csv_lines_app. reflexivity.
    + destruct (append (csvWriter srv)).
      * eexists. rewrite append_nil_l. reflexivity.
      * eexists. rewrite <- csv_lines_app. reflexivity.
Qed.

Lemma run_file_written (reqs : list request) (srv : server) :
  file_written srv -> file_written (run srv reqs).
Proof.
  revert srv. induction reqs as [|req reqs IH]; intros srv Hfile; [exact Hfile|].
  change (run srv (req :: reqs)) with (run (fst (handle srv req)) reqs).
  apply IH, handle_file_written, Hfile.
Qed.

Lemma in_written_records (record : gmap string scalar)
    (rows : list (gmap string scalar)) :
  In record rows -> In (getRecordAsArray record) (written_records rows).
Proof.
  destruct rows as [|r rows]; [contradiction|].
  apply (in_map getRecordAsArray).
Qed.

(** Every row of the table is a record of a successful export. *)
Lemma export_clients_rows (env : export_env) (srv : server) (name content : string)
    (row : client_row) :
  file_written srv ->
  snd (export_clients env srv) = download_response name content ->
  In row (clients (connection srv)) ->
  In (record_text (getRecordAsArray (row_columns row))) (parse_csv content).
Proof.
  intros Hfile Hexport Hrow.
  destruct (export_clients_content env srv name content Hfile Hexport) as (before & ->).
  rewrite <- (append_nil_r (csv_lines _)), parse_csv_lines.
  rewrite app_nil_r, map_app. apply in_or_app. right.
  apply in_map, in_written_records, in_map, Hrow.
Qed.

(** The export reads the ten columns of an inserted row as the insert bound
    them. *)
Lemma getRecordAsArray_inserted_row (db : datastore) (body : request_body) :
  getRecordAsArray (row_columns (inserted_row db body)) =
  map (fun field => Some (sql_param (body !! field))) insert_columns.
Proof.
  unfold getRecordAsArray, inserted_row.
  cbn [row_columns header insert_columns map fst snd zip_with list_to_map foldr].
  repeat f_equal; simplify_map_eq; reflexivity.
Qed.

Lemma field_text_populated (v : scalar) :
  v <> SNull -> field_text (Some (sql_param (Some v))) = js_String v.
Proof.
  intros Hv. unfold field_text. cbn [sql_param].
  destruct v as [[|c s]|n|b|]; try reflexivity. congruence.
Qed.

(** C9. Take a server that has handled any requests since it started, and a
    submission that the insert route accepts with code 1.  Whatever requests
    follow, the CSV sent by a successful export after them has a record of
    ten columns in which the column of every populated field is the
    submitted value. *)
Theorem inserted_client_is_exported (db : datastore) (file : option string)
    (history : list request) (env : add_env) (body : request_body)
    (later : list request) (xenv : export_env) (content : string) :
  let srv := run (boot db file) history in
  response_code (snd (add_client_route env srv body)) = Some 1 ->
  snd (export_clients xenv (run (fst (add_client_route env srv body)) later)) =
    download_response "clients.csv" content ->
  exists columns : list string,
    In columns (parse_csv content) /\
    Forall2
      (fun field column =>
         forall v, body !! field = Some v -> v <> SNull -> column = js_String v)
      insert_columns columns.
Proof.
  intros srv Hcode Hexport.
  set (row := inserted_row (connection srv) body).
  exists (record_text (getRecordAsArray (row_columns row))). split.
  - eapply export_clients_rows; [|exact Hexport|].
    + apply run_file_written. rewrite add_client_route_fst.
      apply (run_file_written history), boot_file_written.
    + destruct (run_clients later (fst (add_client_route env srv body)))
        as (added & ->).
      rewrite add_client_route_fst. cbn [connection].
      rewrite add_client_route_snd in Hcode.
      destruct (add_client_outcome env (connection srv) body)
        as [[_ ->] | [Hne _]]; [|contradiction].
      cbn [clients]. apply in_or_app. left. apply in_or_app. right. left.
      reflexivity.
  - unfold row. rewrite getRecordAsArray_inserted_row.
    cbn [insert_columns map record_text].
    repeat constructor; intros v Hv Hnull; rewrite Hv;
      apply field_text_populated, Hnull.
Qed.

(** ** The shape of the JSON bodies *)

(** C4, as the code has it.  Every JSON body of the insert route has
    exactly the envelope fields, except the duplicate-phone body (code -2),
    which has [description] where the envelope has [info]; every JSON body
    of the export route has exactly the envelope fields. *)
Theorem json_body_fields :
  (forall env db body status b,
      snd (add_client env db body) = json_response status b ->
      body_fields b =
        if bool_decide (response_code (json_response status b) = Some (-2))
        then duplicate_fields else envelope_fields) /\
  (forall env srv status b,
      snd (export_clients env srv) = json_response status b ->
      body_fields b = envelope_fields).
Proof.
  split.
  - intros env db body status b. unfold add_client.
    destruct (isEmpty (validationResult body)); cbn [negb].
    2:{ intros [= <- <-]. reflexivity. }
    destruct (checkQuery (lookup_fault env) db (body !! "phone_number")) as [err|results].
    { intros [= <- <-]. reflexivity. }
    destruct (0 <? length results)%nat.
    { intros [= <- <-]. reflexivity. }
    unfold insertQuery.
    destruct (insert_fault env) as [err|]; response_fields;
      intros [= <- <-]; reflexivity.
  - intros env srv status b. unfold export_clients, writeRecords.
    destruct (read_fault env); [intros [= <- <-]; reflexivity|].
    destruct (write_fault env); [intros [= <- <-]; reflexivity|].
    discriminate.
Qed.

(** ** What an export sends *)

(** The first successful export of a server sends the header line followed
    by the lines of the rows. *)
Lemma export_clients_fresh (env : export_env) (srv : server) :
  csvWriter srv = createObjectCsvWriter ->
  read_fault env = None ->
  write_fault env = None ->
  snd (export_clients env srv) =
    download_response "clients.csv"
      (getHeaderString ++
       stringifyRecords (map row_columns (clients (connection srv)))).
Proof.
  intros Hw Hread Hwrite.
  unfold export_clients, writeRecords. rewrite Hw, Hread, Hwrite. reflexivity.
Qed.

(** Every later successful export sends the file as it was, followed by the
    lines of the rows once more. *)
Lemma export_clients_again (env : export_env) (srv : server) (old : string) :
  csvWriter srv = {| append := true; fileWriter_append := true |} ->
  clients_csv srv = Some old ->
  read_fault env = None ->
  write_fault env = None ->
  snd (export_clients env srv) =
    download_response "clients.csv"
      (old ++ stringifyRecords (map row_columns (clients (connection srv)))).
Proof.
  intros Hw Hfile Hread Hwrite.
  unfold export_clients, writeRecords. rewrite Hw, Hfile, Hread, Hwrite. reflexivity.
Qed.

(** ** Further properties of validation *)

(** X1. The pattern of the [preferred_time] rule accepts exactly the
    strings [HH:MM:SS] with HH from 00 to 23 and MM, SS from 00 to 59. *)
Theorem preferred_time_pattern_accepts_clock_times (s : string) :
  regex_test preferred_time_pattern s = true <-> HH_MM_SS s.
Proof. rewrite regex_test_time_shape. apply time_shape_spec. Qed.

Lemma run_chain_params (body : request_body) (chains : list chain) :
  sublist (map error_param (flat_map (run_chain body) chains))
          (map chain_field chains).
Proof.
  induction chains as [|c chains IH]; [constructor|].
  cbn [flat_map map]. rewrite map_app. unfold run_chain at 1.
  destruct (chain_optional c), (body !! chain_field c);
    try destruct (run_validator _ _); cbn [map app];
    (apply sublist_skip, IH || apply sublist_cons, IH).
Qed.

(** X2. The validation errors come in the order of the chains, at most one
    for each field. *)
Theorem validation_errors_in_chain_order (body : request_body) :
  sublist (map error_param (validationResult body))
    [ "title"; "name"; "surname"; "phone_number"; "id_number"; "email";
      "optindate"; "preferred_time"; "offerID" ].
Proof. apply (run_chain_params body add_client_chains). Qed.

(** X3. Every validation error is located in the body, carries the value
    that was submitted for its field, and has the message written for that
    field. *)
Theorem validation_error_content (body : request_body) (e : validation_error) :
  In e (validationResult body) ->
  error_location e = "body" /\
  error_value e = body !! error_param e /\
  In (error_param e, error_msg e)
    [ ("title", "Title is required");
      ("name", "Name is required");
      ("surname", "Surname is required");
      ("phone_number", "Invalid phone number");
      ("id_number", "ID number must be 13 digits");
      ("email", "Invalid email");
      ("optindate", "Invalid opt-in date");
      ("preferred_time", "Invalid preferred time format");
      ("offerID", "OfferID must be a string") ].
Proof.
  intros Hin.
  apply in_validationResult in Hin as (c & Hc & Hin).
  apply in_run_chain in Hin as (-> & _ & _).
  cbn [chain_error error_location error_value error_param error_msg].
  repeat split.
  apply (in_map (fun c => (chain_field c, chain_message c))) in Hc. exact Hc.
Qed.

(** X4. [notes] is never validated, and an optional field that is absent
    gives no error. *)
Theorem optional_fields_may_be_absent (body : request_body) (e : validation_error) :
  In e (validationResult body) ->
  error_param e <> "notes" /\
  (In (error_param e) ["optindate"; "preferred_time"; "offerID"] ->
   body !! error_param e <> None).
Proof.
  intros Hin.
  apply in_validationResult in Hin as (c & Hc & Hin).
  apply in_run_chain in Hin as (-> & Hchecked & _).
  unfold chain_checked in Hchecked.
  cbn [In add_client_chains] in Hc.
  repeat (destruct Hc as [<- | Hc]); try contradiction;
    cbn [chain_error error_param chain_field chain_optional] in *;
    (split; [discriminate|]);
    try (intros _; exact (Hchecked eq_refl));
    intros [Hf | [Hf | [Hf | []]]]; discriminate.
Qed.

(** X5. A [preferred_time] that is present is accepted exactly when its
    text is a time [HH:MM:SS]; [null] and numbers are read as text like any
    other value. *)
Theorem preferred_time_rule (body : request_body) (v : scalar) :
  body !! "preferred_time" = Some v ->
  (HH_MM_SS (toString (Some v)) <->
   forall e, In e (validationResult body) -> error_param e <> "preferred_time").
Proof.
  intros Hv. split.
  - intros Htime e Hin Hparam.
    assert (Hviol : violates body "preferred_time")
      by (apply validationResult_violates; eauto).
    inversion Hviol as [| | | | | | |w Hw Hbad|].
    rewrite Hv in Hw. injection Hw as <-. contradiction.
  - intros Hnone.
    destruct (regex_test preferred_time_pattern (toString (Some v))) eqn:Htest.
    + apply preferred_time_pattern_spec, Htest.
    + exfalso.
      assert (Hviol : violates body "preferred_time").
      { apply (preferred_time_format _ v Hv).
        rewrite <- preferred_time_pattern_spec, Htest. discriminate. }
      apply validationResult_violates in Hviol as (e & Hin & Hparam).
      exact (Hnone e Hin Hparam).
Qed.

(** X6. An [offerID] that is present is accepted exactly when it is a
    string: a number, a boolean or [null] is an error. *)
Theorem offerID_rule (body : request_body) (v : scalar) :
  body !! "offerID" = Some v ->
  ((exists s, v = SStr s) <->
   forall e, In e (validationResult body) -> error_param e <> "offerID").
Proof.
  intros Hv. split.
  - intros (s & ->) e Hin Hparam.
    assert (Hviol : violates body "offerID")
      by (apply validationResult_violates; eauto).
    inversion Hviol as [| | | | | | | |w Hw Hbad].
    rewrite Hv in Hw. injection Hw as <-. exact (Hbad s eq_refl).
  - intros Hnone.
    destruct v as [s|n|b|]; [exists s; reflexivity| | |]; exfalso.
    all: match goal with
         | |- False =>
             assert (Hviol : violates body "offerID")
               by (apply (offerID_type _ _ Hv); intros s; discriminate);
             apply validationResult_violates in Hviol as (e & Hin & Hparam);
             exact (Hnone e Hin Hparam)
         end.
Qed.

(** ** Further properties of the insert route *)

Lemma add_client_split (env : add_env) (db : datastore) (body : request_body) :
  add_client env db body =
    match add_client_lookup env db body with
    | Responded response => (db, response)
    | Inserting params => add_client_insert env db params
    end.
Proof.
  unfold add_client, add_client_lookup, add_client_insert.
  destruct (isEmpty (validationResult body)); cbn [negb]; [|reflexivity].
  destruct (checkQuery _ _ _) as [err|results]; [reflexivity|].
  destruct (0 <? length results)%nat; reflexivity.
Qed.

Lemma sql_eq_sym (a b : scalar) : sql_eq a b = sql_eq b a.
Proof.
  destruct a, b; cbn [sql_eq]; try reflexivity;
    apply bool_decide_ext; split; congruence.
Qed.

Lemma sql_eq_refl (a : scalar) : a <> SNull -> sql_eq a a = true.
Proof.
  intros Ha. destruct a; cbn [sql_eq]; try congruence;
    apply bool_decide_eq_true; reflexivity.
Qed.

Lemma filter_nil_inv {A} (f : A -> bool) (l : list A) :
  List.filter f l = [] -> Forall (fun x => f x = false) l.
Proof.
  induction l as [|x l IH]; cbn [List.filter]; [constructor|].
  destruct (f x) eqn:Hx; [discriminate|].
  intros Hl. constructor; [exact Hx | exact (IH Hl)].
Qed.

Lemma phone_number_inserted_row (db : datastore) (body : request_body) :
  column "phone_number" (inserted_row db body) = sql_param (body !! "phone_number").
Proof.
  unfold column, inserted_row.
  cbn [row_columns insert_columns map fst snd zip_with list_to_map foldr].
  simplify_map_eq. reflexivity.
Qed.

(** The INSERT is only sent when the lookup found no row with the submitted
    phone number. *)
Lemma add_client_inserts_fresh (env : add_env) (db : datastore) (body : request_body) :
  response_code (snd (add_client env db body)) = Some 1 ->
  Forall (fun r => same_phone body r = false) (clients db).
Proof.
  unfold add_client, same_phone.
  destruct (isEmpty (validationResult body)); cbn [negb]; [|discriminate].
  unfold checkQuery.
  destruct (lookup_fault env); [discriminate|].
  destruct (List.filter _ (clients db)) as [|r results] eqn:Hfilter; [|discriminate].
  intros _. apply filter_nil_inv, Hfilter.
Qed.

Lemma phones_distinct_snoc (rows : list client_row) (row : client_row) :
  phones_distinct rows ->
  Forall (fun r => sql_eq (column "phone_number" r) (column "phone_number" row) = false)
         rows ->
  phones_distinct (rows ++ [row]).
Proof.
  intros Hrows Hrow i j r1 r2 Hi Hj Hij.
  apply lookup_app_Some in Hi as [Hi | [Hlen Hi]];
    apply lookup_app_Some in Hj as [Hj | [Hlen' Hj]].
  - exact (Hrows i j r1 r2 Hi Hj Hij).
  - apply list_lookup_singleton_Some in Hj as [_ <-].
    exact (Forall_lookup_1 _ _ _ _ Hrow Hi).
  - apply list_lookup_singleton_Some in Hi as [_ <-].
    rewrite sql_eq_sym. exact (Forall_lookup_1 _ _ _ _ Hrow Hj).
  - apply list_lookup_singleton_Some in Hi as [Hi _].
    apply list_lookup_singleton_Some in Hj as [Hj _]. lia.
Qed.

Lemma add_client_phones_distinct (env : add_env) (db : datastore)
    (body : request_body) :
  phones_distinct (clients db) ->
  phones_distinct (clients (fst (add_client env db body))).
Proof.
  intros Hdb.
  destruct (add_client_outcome env db body) as [[Hcode ->] | [_ ->]]; [|exact Hdb].
  cbn [clients]. apply phones_distinct_snoc; [exact Hdb|].
  rewrite phone_number_inserted_row.
  exact (add_client_inserts_fresh env db body Hcode).
Qed.

(** X7. Handled one after the other, requests keep the phone numbers of
    the table distinct: the lookup stands in for a uniqueness constraint. *)
Theorem phone_numbers_stay_distinct (srv : server) (reqs : list request) :
  phones_distinct (clients (connection srv)) ->
  phones_distinct (clients (connection (run srv reqs))).
Proof.
  revert srv. induction reqs as [|req reqs IH]; intros srv Hsrv; [exact Hsrv|].
  change (run srv (req :: reqs)) with (run (fst (handle srv req)) reqs).
  apply IH. destruct req as [env body | env]; cbn [handle].
  - rewrite add_client_route_fst. cbn [connection].
    apply add_client_phones_distinct, Hsrv.
  - rewrite export_clients_connection. exact Hsrv.
Qed.

(** X8. The lookup and the INSERT are separate queries.  When two valid
    submissions with the same phone number have both their lookups executed
    before either INSERT, both are answered with code 1 and the table ends
    with two rows that have that phone number. *)
Theorem interleaved_submissions_are_both_inserted (env1 env2 : add_env)
    (db : datastore) (body1 body2 : request_body) (phone : scalar) :
  validationResult body1 = [] ->
  validationResult body2 = [] ->
  body1 !! "phone_number" = Some phone ->
  body2 !! "phone_number" = Some phone ->
  phone <> SNull ->
  Forall (fun r => same_phone body1 r = false) (clients db) ->
  lookup_fault env1 = None -> lookup_fault env2 = None ->
  insert_fault env1 = None -> insert_fault env2 = None ->
  exists params1 params2,
    add_client_lookup env1 db body1 = Inserting params1 /\
    add_client_lookup env2 db body2 = Inserting params2 /\
    let first := add_client_insert env1 db params1 in
    let second := add_client_insert env2 (fst first) params2 in
    response_code (snd first) = Some 1 /\
    response_code (snd second) = Some 1 /\
    clients (fst second) =
      (clients db ++ [inserted_row db body1; inserted_row (fst first) body2])%list /\
    ~ phones_distinct (clients (fst second)).
Proof.
  intros Hvalid1 Hvalid2 Hp1 Hp2 Hnull Hfresh Hl1 Hl2 Hi1 Hi2.
  assert (Hfresh2 : Forall (fun r => same_phone body2 r = false) (clients db)).
  { unfold same_phone in *. rewrite Hp2. rewrite Hp1 in Hfresh. exact Hfresh. }
  unfold same_phone in Hfresh, Hfresh2.
  exists (map (fun c => body1 !! c) insert_columns),
         (map (fun c => body2 !! c) insert_columns).
  split; [|split].
  - unfold add_client_lookup. rewrite Hvalid1. cbn [isEmpty negb].
    unfold checkQuery. rewrite Hl1, (filter_nil_Forall _ _ Hfresh). reflexivity.
  - unfold add_client_lookup. rewrite Hvalid2. cbn [isEmpty negb].
    unfold checkQuery. rewrite Hl2, (filter_nil_Forall _ _ Hfresh2). reflexivity.
  - unfold add_client_insert, insertQuery. rewrite Hi1. cbn [fst snd].
    rewrite Hi2. cbn [fst snd clients]. response_fields.
    split; [reflexivity|]. split; [reflexivity|]. split.
    + rewrite <- app_assoc. reflexivity.
    + intros Hdistinct. rewrite <- app_assoc in Hdistinct. cbn [app] in Hdistinct.
      set (row1 := inserted_row db body1) in *.
      set (row2 := {| row_id := auto_increment db + 1;
                      row_columns := row_columns (inserted_row db body2) |}).
      assert (Heq : sql_eq (column "phone_number" row1) (column "phone_number" row2) = false).
      { apply (Hdistinct (length (clients db)) (S (length (clients db)))).
        - rewrite lookup_app_r by lia. rewrite Nat.sub_diag. reflexivity.
        - rewrite lookup_app_r by lia.
          replace (S (length (clients db)) - length (clients db))%nat with 1%nat by lia.
          reflexivity.
        - lia. }
      change (column "phone_number" row2)
        with (column "phone_number" (inserted_row db body2)) in Heq.
      unfold row1 in Heq. rewrite !phone_number_inserted_row, Hp1, Hp2 in Heq.
      cbn [sql_param] in Heq. rewrite (sql_eq_refl _ Hnull) in Heq. discriminate.
Qed.

(** X9. Once a submission has been inserted, a later valid submission with
    the same phone number is answered as a duplicate and changes nothing,
    whatever else it contains and whatever was inserted in between. *)
Theorem resubmission_is_a_duplicate (env env' : add_env) (srv : server)
    (body body' : request_body) (between : list request) (phone : scalar) :
  response_code (snd (add_client_route env srv body)) = Some 1 ->
  body !! "phone_number" = Some phone ->
  body' !! "phone_number" = Some phone ->
  phone <> SNull ->
  validationResult body' = [] ->
  lookup_fault env' = None ->
  let srv' := run (fst (add_client_route env srv body)) between in
  add_client env' (connection srv') body' =
    (connection srv',
     json_response 400 (JObject
       [ ("code", JNum (-2));
         ("response", JStr "Invalid Lead");
         ("description", JStr "Duplicate");
         ("leadId", JNull);
         ("processTime", JNum 0);
         ("timestamp", JStr (add_now env')) ])).
Proof.
  intros Hcode Hp Hp' Hnull Hvalid Hlookup srv'.
  assert (Hrow : In (inserted_row (connection srv) body) (clients (connection srv'))).
  { unfold srv'.
    destruct (run_clients between (fst (add_client_route env srv body))) as (added & ->).
    rewrite add_client_route_fst. cbn [connection].
    rewrite add_client_route_snd in Hcode.
    destruct (add_client_outcome env (connection srv) body)
      as [[_ ->] | [Hne _]]; [|contradiction].
    cbn [clients]. apply in_or_app. left. apply in_or_app. right. left. reflexivity. }
  add_client_start Hvalid. unfold checkQuery. rewrite Hlookup.
  rewrite filter_cons_Exists; [reflexivity|].
  apply Exists_exists. exists (inserted_row (connection srv) body).
  split; [apply list_elem_of_In, Hrow|].
  rewrite phone_number_inserted_row, Hp, Hp'. cbn [sql_param].
  apply sql_eq_refl, Hnull.
Qed.

(** X10. No request removes, changes or reorders a row: after any requests
    the table starts with the rows it had. *)
Theorem table_is_append_only (srv : server) (reqs : list request) :
  prefix (clients (connection srv)) (clients (connection (run srv reqs))).
Proof. destruct (run_clients reqs srv) as (added & ->). exists added. reflexivity. Qed.

Lemma handle_log (srv : server) (req : request) :
  combined_log (fst (handle srv req)) = (combined_log srv ++ logged req)%list.
Proof.
  destruct req as [env body | env]; cbn [handle logged].
  - rewrite add_client_route_fst. cbn [combined_log]. rewrite app_nil_r. reflexivity.
  - unfold export_clients, writeRecords.
    destruct (read_fault env); [reflexivity|].
    destruct (write_fault env); cbn [fst combined_log]; [reflexivity|].
    rewrite app_nil_r. reflexivity.
Qed.

(** X11. The log gains one line for each export whose read or write fails,
    carrying the error's detail, and nothing else: the insert route logs
    nothing, not even its datastore errors. *)
Theorem log_after_requests (srv : server) (reqs : list request) :
  combined_log (run srv reqs) = (combined_log srv ++ flat_map logged reqs)%list.
Proof.
  revert srv. induction reqs as [|req reqs IH]; intros srv.
  - cbn. rewrite app_nil_r. reflexivity.
  - change (run srv (req :: reqs)) with (run (fst (handle srv req)) reqs).
    rewrite IH, handle_log. cbn [flat_map]. rewrite app_assoc. reflexivity.
Qed.

(** X15. The insert route always answers with a JSON object whose
    processTime is 0 and whose timestamp is the clock.  Status 201 goes with
    code 1 and a numeric leadId; every other answer has one of the pairs
    400/-5, 500/-100, 400/-2, 400/-100 and a null leadId. *)
Theorem add_client_responses (env : add_env) (db : datastore) (body : request_body) :
  exists status members,
    snd (add_client env db body) = json_response status (JObject members) /\
    member "processTime" members = Some (JNum 0) /\
    member "timestamp" members = Some (JStr (add_now env)) /\
    ((status = 201 /\
      member "code" members = Some (JNum 1) /\
      member "leadId" members = Some (JNum (auto_increment db))) \/
     (In (status, member "code" members)
         [ (400, Some (JNum (-5))); (500, Some (JNum (-100)));
           (400, Some (JNum (-2))); (400, Some (JNum (-100))) ] /\
      member "leadId" members = Some JNull)).
Proof.
  unfold add_client.
  destruct (isEmpty (validationResult body)); cbn [negb].
  2:{ eexists; eexists. split; [reflexivity|]. response_fields.
      repeat split. right. split; [|reflexivity]. left. reflexivity. }
  destruct (checkQuery (lookup_fault env) db (body !! "phone_number")) as [err|results].
  { eexists; eexists. split; [reflexivity|]. response_fields.
    repeat split. right. split; [|reflexivity]. right. left. reflexivity. }
  destruct (0 <? length results)%nat.
  { eexists; eexists. split; [reflexivity|]. response_fields.
    repeat split. right. split; [|reflexivity]. do 2 right. left. reflexivity. }
  unfold insertQuery.
  destruct (insert_fault env) as [err|]; response_fields.
  - eexists; eexists. split; [reflexivity|]. response_fields.
    repeat split. right. split; [|reflexivity]. do 3 right. left. reflexivity.
  - eexists; eexists. split; [reflexivity|]. response_fields.
    repeat split. left. repeat split.
Qed.

(** ** Further properties of the export route *)

Lemma export_clients_step (db : datastore) (k : nat) (env : export_env) (srv : server) :
  exported_times db k srv ->
  untroubled env ->
  exported_times db (S k) (fst (export_clients env srv)) /\
  snd (export_clients env srv) =
    download_response "clients.csv"
      (getHeaderString ++
       copies (S k) (stringifyRecords (map row_columns (clients db)))).
Proof.
  intros [Hdb Hk] [Hread Hwrite].
  unfold exported_times, export_clients, writeRecords.
  rewrite Hread, Hwrite, Hdb.
  destruct k as [|k].
  - rewrite Hk. cbn [append fileWriter_append fst snd connection csvWriter clients_csv default].
    cbn [copies]. rewrite append_nil_l. repeat split; reflexivity.
  - destruct Hk as [-> ->].
    cbn [append fileWriter_append fst snd connection csvWriter clients_csv default].
    rewrite append_nil_l, append_assoc.
    change (copies (S k) ?t ++ ?t) with (copies (S (S k)) t).
    repeat split; reflexivity.
Qed.

Lemma exports_state (db : datastore) (envs : list export_env) :
  Forall untroubled envs ->
  forall (k : nat) (srv : server),
    exported_times db k srv ->
    exported_times db (k + length envs) (run srv (map GET_clients_export envs)).
Proof.
  induction 1 as [|env envs Henv _ IH]; intros k srv Hsrv.
  - rewrite Nat.add_0_r. exact Hsrv.
  - cbn [map length].
    change (run srv (GET_clients_export env :: map GET_clients_export envs))
      with (run (fst (export_clients env srv)) (map GET_clients_export envs)).
    replace (k + S (length envs))%nat with (S k + length envs)%nat by lia.
    apply IH. exact (proj1 (export_clients_step db k env srv Hsrv Henv)).
Qed.

(** X12. Exports accumulate.  After a start, with [n] successful exports
    behind it and the table unchanged, the next successful export sends the
    header followed by [n + 1] copies of the lines of the table. *)
Theorem repeated_exports_accumulate (db : datastore) (file : option string)
    (envs : list export_env) (env : export_env) :
  Forall untroubled envs ->
  untroubled env ->
  snd (export_clients env (run (boot db file) (map GET_clients_export envs))) =
    download_response "clients.csv"
      (getHeaderString ++
       copies (S (length envs)) (stringifyRecords (map row_columns (clients db)))).
Proof.
  intros Henvs Henv.
  assert (Hboot : exported_times db 0 (boot db file)) by (split; reflexivity).
  pose proof (exports_state db envs Henvs 0 (boot db file) Hboot) as Hstate.
  exact (proj2 (export_clients_step db _ env _ Hstate Henv)).
Qed.

Lemma record_text_getRecordAsArray (record : gmap string scalar) :
  record_text (getRecordAsArray record) = map field_text (getRecordAsArray record).
Proof. reflexivity. Qed.

(** X13. The first successful export of a server reads back as the ten
    titles followed by one record for each row, in table order, whose fields
    are the texts of the row's columns; commas, double quotes and line feeds
    inside a value come back unchanged.  For an empty table the titles are
    followed by a single empty line. *)
Theorem first_export_reads_back (env : export_env) (srv : server) :
  csvWriter srv = createObjectCsvWriter ->
  untroubled env ->
  exists content,
    snd (export_clients env srv) = download_response "clients.csv" content /\
    parse_csv content =
      map snd header ::
      match clients (connection srv) with
      | [] => [[""]]
      | rows => map (fun r => map field_text (getRecordAsArray (row_columns r))) rows
      end.
Proof.
  intros Hw [Hread Hwrite].
  eexists. split; [apply export_clients_fresh; assumption|].
  rewrite getHeaderString_lines, stringifyRecords_lines, <- csv_lines_app.
  rewrite <- (append_nil_r (csv_lines _)), parse_csv_lines.
  rewrite app_nil_r. cbn [app map]. f_equal.
  destruct (clients (connection srv)) as [|r rows]; [reflexivity|].
  cbn [map written_records]. rewrite !map_map. reflexivity.
Qed.


End Server.

(** ** The model on concrete requests *)

Local Abbreviation sample_validationResult :=
  (validationResult sample_isMobilePhone sample_isEmail sample_isISO8601).
Local Abbreviation sample_add_client :=
  (add_client sample_isMobilePhone sample_isEmail sample_isISO8601).
Local Abbreviation sample_add_client_route :=
  (add_client_route sample_isMobilePhone sample_isEmail sample_isISO8601).

Lemma add_client_created_witness :
  exists (db' : datastore) (row : client_row),
    sample_add_client quiet empty_table john_doe =
      (db', json_response 201
              (envelope 1 "OK" (JArray []) (JNum (row_id row)) 0 (add_now quiet))) /\
    clients db' = (clients empty_table ++ [row])%list /\
    row_id row = auto_increment empty_table.
Proof.
  apply add_client_created.
  - vm_compute. reflexivity.
  - constructor.
  - reflexivity.
  - reflexivity.
Defined.

Lemma add_client_validation_error_witness :
  exists errors : list validation_error,
    sample_add_client quiet empty_table bad_submission =
      (empty_table,
       json_response 400
         (envelope (-5) "Validation error"
            (JArray (map JValidationError errors)) JNull 0 (add_now quiet))) /\
    forall field,
      violates sample_isMobilePhone sample_isEmail sample_isISO8601 bad_submission field <->
      exists e, In e errors /\ error_param e = field.
Proof.
  apply add_client_validation_error.
  exists "id_number". apply id_number_length. vm_compute. discriminate.
Defined.

Lemma add_client_duplicate_witness :
  sample_add_client quiet one_client john_doe =
    (one_client, json_response 400 (JObject
      [ ("code", JNum (-2));
        ("response", JStr "Invalid Lead");
        ("description", JStr "Duplicate");
        ("leadId", JNull);
        ("processTime", JNum 0);
        ("timestamp", JStr (add_now quiet)) ])).
Proof.
  apply add_client_duplicate.
  - vm_compute. reflexivity.
  - reflexivity.
  - constructor. vm_compute. reflexivity.
Defined.

Lemma datastore_error_responses_witness :
  sample_add_client lookup_down empty_table john_doe =
    (empty_table,
     json_response 500
       (envelope (-100) "Internal error"
          (JObject [("error", JStr "Database error")]) JNull 0 (add_now lookup_down))) /\
  sample_add_client insert_down empty_table john_doe =
    (empty_table,
     json_response 400
       (envelope (-100) "Internal error"
          (JObject [("error", JStr "Database error")]) JNull 0 (add_now insert_down))) /\
  snd (export_clients read_down (boot one_client None)) =
    json_response 500
      (envelope (-100) "Internal error"
         (JObject [("error", JStr "Database error")]) JNull 0 (export_now read_down)).
Proof.
  destruct (datastore_error_responses sample_isMobilePhone sample_isEmail sample_isISO8601)
    as (Hlookup & Hinsert & Hread).
  split; [|split].
  - apply (Hlookup lookup_down empty_table john_doe connection_lost).
    + vm_compute. reflexivity.
    + reflexivity.
  - apply (Hinsert insert_down empty_table john_doe connection_lost).
    + vm_compute. reflexivity.
    + reflexivity.
    + constructor.
    + reflexivity.
  - apply (Hread read_down (boot one_client None) connection_lost). reflexivity.
Defined.

Lemma add_client_rows_witness :
  (exists row,
      clients (fst (sample_add_client quiet empty_table john_doe)) =
        (clients empty_table ++ [row])%list) /\
  fst (sample_add_client quiet one_client john_doe) = one_client.
Proof.
  split.
  - apply (proj1 (add_client_rows sample_isMobilePhone sample_isEmail sample_isISO8601
                    quiet empty_table john_doe)).
    vm_compute. reflexivity.
  - apply (proj2 (add_client_rows sample_isMobilePhone sample_isEmail sample_isISO8601
                    quiet one_client john_doe)).
    vm_compute. discriminate.
Defined.

Lemma export_clients_write_failure_witness :
  snd (export_clients disk_full (boot one_client None)) =
    json_response 500
      (envelope (-100) "Internal error"
         (JObject [("error", JStr "CSV writing error")]) JNull 0 (export_now disk_full)).
Proof.
  apply (export_clients_write_failure disk_full (boot one_client None)
           "ENOSPC: no space left on device"); reflexivity.
Defined.

Lemma id_number_checks_length_only_witness :
  String.length "ABCDEFGHIJKLM" = 13%nat <->
  forall e, In e (sample_validationResult letters_id) -> error_param e <> "id_number".
Proof.
  apply (id_number_checks_length_only sample_isMobilePhone sample_isEmail
           sample_isISO8601 letters_id "ABCDEFGHIJKLM").
  vm_compute. reflexivity.
Defined.

Lemma inserted_client_is_exported_witness :
  exists columns : list string,
    In columns (parse_csv (getHeaderString ++ john_doe_full_line)) /\
    Forall2
      (fun field column =>
         forall v, john_doe_full !! field = Some v -> v <> SNull -> column = js_String v)
      insert_columns columns.
Proof.
  apply (inserted_client_is_exported sample_isMobilePhone sample_isEmail sample_isISO8601
           empty_table None [] quiet john_doe_full [] quiet_export).
  - vm_compute. reflexivity.
  - vm_compute. reflexivity.
Defined.

(** C4 fails on the duplicate-phone body: resubmitting John Doe is answered
    with a body that has no [info] field. *)
Lemma duplicate_body_is_not_the_envelope :
  exists status b,
    snd (sample_add_client quiet one_client john_doe) = json_response status b /\
    body_fields b <> envelope_fields.
Proof.
  eexists. eexists. split.
  - vm_compute. reflexivity.
  - vm_compute. discriminate.
Qed.

Lemma json_body_fields_witness :
  (forall status b,
      snd (sample_add_client quiet one_client john_doe) = json_response status b ->
      body_fields b = duplicate_fields) /\
  (forall status b,
      snd (sample_add_client lookup_down one_client john_doe) = json_response status b ->
      body_fields b = envelope_fields) /\
  (forall status b,
      snd (export_clients disk_full (boot one_client None)) = json_response status b ->
      body_fields b = envelope_fields).
Proof.
  destruct (json_body_fields sample_isMobilePhone sample_isEmail sample_isISO8601)
    as (Hadd & Hexport).
  split; [|split].
  - intros status b Hresp.
    rewrite (Hadd quiet one_client john_doe status b Hresp).
    vm_compute in Hresp. injection Hresp as <- <-. reflexivity.
  - intros status b Hresp.
    rewrite (Hadd lookup_down one_client john_doe status b Hresp).
    vm_compute in Hresp. injection Hresp as <- <-. reflexivity.
  - intros status b Hresp.
    exact (Hexport disk_full (boot one_client None) status b Hresp).
Defined.

(** C7 on two exports in a row.  The table holds one row; the first export
    sends the header and that row, the second sends the header and the row
    twice, because the shared writer appends to the file it wrote before. *)
Lemma second_export_repeats_the_rows :
  length (clients one_client) = 1%nat /\
  snd (export_clients quiet_export (boot one_client None)) =
    download_response "clients.csv" (getHeaderString ++ john_doe_line) /\
  snd (export_clients quiet_export
         (fst (export_clients quiet_export (boot one_client None)))) =
    download_response "clients.csv"
      (getHeaderString ++ john_doe_line ++ john_doe_line).
Proof. repeat split; vm_compute; reflexivity. Qed.

(** ** The further properties on concrete requests *)

Local Abbreviation sample_run :=
  (run sample_isMobilePhone sample_isEmail sample_isISO8601).
Local Abbreviation sample_add_client_lookup :=
  (add_client_lookup sample_isMobilePhone sample_isEmail sample_isISO8601).

Lemma validation_error_content_witness :
  error_location short_id_error = "body" /\
  error_value short_id_error = bad_submission !! error_param short_id_error /\
  In (error_param short_id_error, error_msg short_id_error)
    [ ("title", "Title is required");
      ("name", "Name is required");
      ("surname", "Surname is required");
      ("phone_number", "Invalid phone number");
      ("id_number", "ID number must be 13 digits");
      ("email", "Invalid email");
      ("optindate", "Invalid opt-in date");
      ("preferred_time", "Invalid preferred time format");
      ("offerID", "OfferID must be a string") ].
Proof.
  apply (validation_error_content sample_isMobilePhone sample_isEmail sample_isISO8601
           bad_submission short_id_error).
  vm_compute. left. reflexivity.
Defined.

Lemma optional_fields_may_be_absent_witness :
  error_param short_id_error <> "notes" /\
  (In (error_param short_id_error) ["optindate"; "preferred_time"; "offerID"] ->
   bad_submission !! error_param short_id_error <> None).
Proof.
  apply (optional_fields_may_be_absent sample_isMobilePhone sample_isEmail
           sample_isISO8601 bad_submission short_id_error).
  vm_compute. left. reflexivity.
Defined.

Lemma preferred_time_rule_witness :
  HH_MM_SS (toString (Some SNull)) <->
  forall e, In e (sample_validationResult null_time) -> error_param e <> "preferred_time".
Proof.
  apply (preferred_time_rule sample_isMobilePhone sample_isEmail sample_isISO8601
           null_time SNull).
  vm_compute. reflexivity.
Defined.

Lemma offerID_rule_witness :
  (exists s, SNum 123 = SStr s) <->
  forall e, In e (sample_validationResult numeric_offer) -> error_param e <> "offerID".
Proof.
  apply (offerID_rule sample_isMobilePhone sample_isEmail sample_isISO8601
           numeric_offer (SNum 123)).
  vm_compute. reflexivity.
Defined.

Lemma phone_numbers_stay_distinct_witness :
  phones_distinct
    (clients (connection
       (sample_run (boot one_client None)
          [ POST_clients_add quiet jane_doe; GET_clients_export quiet_export;
            POST_clients_add quiet john_doe_full ]))).
Proof.
  apply phone_numbers_stay_distinct.
  intros i j r1 r2 Hi Hj Hij. cbn [boot connection one_client clients] in Hi, Hj.
  apply list_lookup_singleton_Some in Hi as [Hi _].
  apply list_lookup_singleton_Some in Hj as [Hj _]. lia.
Defined.

Lemma interleaved_submissions_are_both_inserted_witness :
  exists params1 params2,
    sample_add_client_lookup quiet empty_table john_doe = Inserting params1 /\
    sample_add_client_lookup quiet empty_table jane_doe = Inserting params2 /\
    let first := add_client_insert quiet empty_table params1 in
    let second := add_client_insert quiet (fst first) params2 in
    response_code (snd first) = Some 1 /\
    response_code (snd second) = Some 1 /\
    clients (fst second) =
      (clients empty_table ++
       [inserted_row empty_table john_doe; inserted_row (fst first) jane_doe])%list /\
    ~ phones_distinct (clients (fst second)).
Proof.
  apply (interleaved_submissions_are_both_inserted sample_isMobilePhone sample_isEmail
           sample_isISO8601 quiet quiet empty_table john_doe jane_doe
           (SStr "+27123456789")).
  - vm_compute. reflexivity.
  - vm_compute. reflexivity.
  - vm_compute. reflexivity.
  - vm_compute. reflexivity.
  - discriminate.
  - constructor.
  - reflexivity.
  - reflexivity.
  - reflexivity.
  - reflexivity.
Defined.

Lemma resubmission_is_a_duplicate_witness :
  sample_add_client quiet
    (connection (sample_run
       (fst (sample_add_client_route quiet (boot empty_table None) john_doe)) []))
    jane_doe =
  (connection (sample_run
     (fst (sample_add_client_route quiet (boot empty_table None) john_doe)) []),
   json_response 400 (JObject
     [ ("code", JNum (-2));
       ("response", JStr "Invalid Lead");
       ("description", JStr "Duplicate");
       ("leadId", JNull);
       ("processTime", JNum 0);
       ("timestamp", JStr (add_now quiet)) ])).
Proof.
  apply (resubmission_is_a_duplicate sample_isMobilePhone sample_isEmail sample_isISO8601
           quiet quiet (boot empty_table None) john_doe jane_doe []
           (SStr "+27123456789")).
  - vm_compute. reflexivity.
  - vm_compute. reflexivity.
  - vm_compute. reflexivity.
  - discriminate.
  - vm_compute. reflexivity.
  - reflexivity.
Defined.

Lemma repeated_exports_accumulate_witness :
  snd (export_clients later_export
         (sample_run (boot one_client None) (map GET_clients_export [quiet_export]))) =
    download_response "clients.csv"
      (getHeaderString ++
       copies 2 (stringifyRecords (map row_columns (clients one_client)))).
Proof.
  apply (repeated_exports_accumulate sample_isMobilePhone sample_isEmail sample_isISO8601
           one_client None [quiet_export] later_export).
  - repeat constructor.
  - split; reflexivity.
Defined.

Lemma first_export_reads_back_witness :
  exists content,
    snd (export_clients quiet_export (boot one_client None)) =
      download_response "clients.csv" content /\
    parse_csv content =
      map snd header ::
      match clients (connection (boot one_client None)) with
      | [] => [[""]]
      | rows => map (fun r => map field_text (getRecordAsArray (row_columns r))) rows
      end.
Proof.
  apply (first_export_reads_back sample_isMobilePhone sample_isEmail sample_isISO8601
           quiet_export (boot one_client None)).
  - reflexivity.
  - split; reflexivity.
Defined.

